(** * The Genie conversation client of the Teams bot

    A shallow embedding of [01-teams-bot/src/genie_client.py]: the
    [GenieClient] class that submits a question to a Genie Space, polls the
    message until it reaches a terminal status and normalises the answer
    into a [GenieResult].

    - Decoded JSON is modelled by [value], with Python's truthiness and the
      exceptions raised by [.get] on something that is not a dict.
    - The timers of [_poll] are IEEE binary64 numbers ([Float]), computed
      with the Standard Library's executable specification of floats.
    - The network is a [server]: a function from the number of requests
      already sent and the request to a [reply].  Every method runs in the
      monad [M], which threads a [world] (request counter and event trace)
      and ends in a value, a raised exception or exhausted fuel.
    - The URLs built with f-strings are kept as [endpoint]s: the path and
      the values interpolated into it. *)

From Stdlib Require Import ZArith QArith List String Ascii Bool Lia.
From Stdlib Require Import Floats.SpecFloat.
From Stdlib Require Import DecimalString.
Import ListNotations.
Local Open Scope string_scope.
Local Open Scope list_scope.
Local Open Scope nat_scope.
#[local] Set Warnings "-register-all".

(** ** Binary64 floating point *)

Module Float.

Definition t := spec_float.

Definition prec : Z := 53.
Definition emax : Z := 1024.

(** An integer literal that binary64 represents exactly. *)
Definition of_Z (z : Z) : t := binary_normalize prec emax z 0 false.

(** [m * 2^e], for the literals with a fractional part. *)
Definition of_scaled (m e : Z) : t := SFldexp prec emax (of_Z m) e.

Definition zero : t := S754_zero false.
Definition mul : t -> t -> t := SFmul prec emax.
Definition add : t -> t -> t := SFadd prec emax.
Definition ltb : t -> t -> bool := SFltb.
Definition leb : t -> t -> bool := SFleb.

(** Python's [min(a, b)]: the first argument unless the second is
    strictly smaller. *)
Definition min (a b : t) : t := if ltb b a then b else a.

Definition is_zero (x : t) : bool :=
  match x with S754_zero _ => true | _ => false end.

(** The rational a finite float denotes ([None] for infinities and NaN). *)
Definition to_Q (x : t) : option Q :=
  match x with
  | S754_zero _ => Some 0%Q
  | S754_finite s m e =>
      Some (Qred (inject_Z (cond_Zopp s (Zpos m)) * Qpower 2 e))
  | _ => None
  end.

End Float.

(** ** Decoded JSON values *)

Inductive value : Type :=
| VNone
| VBool (b : bool)
| VInt (z : Z)
| VFloat (f : Float.t)
| VStr (s : string)
| VList (l : list value)
| VDict (items : list (string * value)).

(** Python truthiness, as tested by [if x:] and [x or y]. *)
Definition truthy (v : value) : bool :=
  match v with
  | VNone => false
  | VBool b => b
  | VInt z => negb (Z.eqb z 0)
  | VFloat f => negb (Float.is_zero f)
  | VStr s => negb (String.eqb s "")
  | VList l => match l with [] => false | _ => true end
  | VDict items => match items with [] => false | _ => true end
  end.

Definition py_or (a b : value) : value := if truthy a then a else b.

(** [v == s] for a string literal [s]. *)
Definition eq_str (v : value) (s : string) : bool :=
  match v with VStr s' => String.eqb s' s | _ => false end.

Fixpoint lookup (items : list (string * value)) (key : string) : option value :=
  match items with
  | [] => None
  | (k, v) :: rest => if String.eqb k key then Some v else lookup rest key
  end.

(** [d.get(key, default)] when [d] is known to be a dict; anything else
    has no entry. *)
Definition dict_get (d : value) (key : string) (default : value) : value :=
  match d with
  | VDict items =>
      match lookup items key with Some v => v | None => default end
  | _ => default
  end.

Definition is_dict (v : value) : bool :=
  match v with VDict _ => true | _ => false end.

(** ** Exceptions, requests and the event trace *)

Inductive transport_failure := ConnectionFailed | TimedOut.

Inductive exn :=
| ConnectionError
| RequestTimeout
| HTTPError (status_code : Z)
| JSONDecodeError
| AttributeError
| TypeError.

Definition exn_of_failure (f : transport_failure) : exn :=
  match f with ConnectionFailed => ConnectionError | TimedOut => RequestTimeout end.

Inductive endpoint :=
| StartConversation
| Messages (conversation_id : value)
| Message (conversation_id message_id : value)
| QueryResult (conversation_id message_id attachment_id : value).

Inductive request :=
| POST (url : endpoint) (json : value)
| GET (url : endpoint).

(** What the transport gives back: no response at all, or a response with a
    status code and a body that decodes as JSON or does not. *)
Inductive reply :=
| NoResponse (f : transport_failure)
| Response (status_code : Z) (body : option value).

Definition server := nat -> request -> reply.

Inductive event :=
| Request (r : request)
| Sleep (seconds : Float.t)
| Warning (e : exn).

Record world := { sent : nat; trace : list event }.

Definition initial : world := {| sent := 0; trace := [] |}.

Definition record_event (e : event) (w : world) : world :=
  {| sent := match e with Request _ => S (sent w) | _ => sent w end;
     trace := trace w ++ [e] |}.

(** ** The monad of the client's methods *)

Inductive outcome (A : Type) :=
| Ret (a : A)
| Raise (e : exn)
| OutOfFuel.
Arguments Ret {A} a.
Arguments Raise {A} e.
Arguments OutOfFuel {A}.

Definition M (A : Type) := world -> outcome A * world.

Definition ret {A} (a : A) : M A := fun w => (Ret a, w).
Definition raise {A} (e : exn) : M A := fun w => (Raise e, w).
Definition out_of_fuel {A} : M A := fun w => (OutOfFuel, w).

Definition bind {A B} (c : M A) (k : A -> M B) : M B :=
  fun w =>
    match c w with
    | (Ret a, w') => k a w'
    | (Raise e, w') => (Raise e, w')
    | (OutOfFuel, w') => (OutOfFuel, w')
    end.

(** [try: c except Exception as e: handler(e)]. *)
Definition try_except {A} (c : M A) (handler : exn -> M A) : M A :=
  fun w =>
    match c w with
    | (Raise e, w') => handler e w'
    | r => r
    end.

Declare Scope client_scope.
Delimit Scope client_scope with client.
Notation "x <- c ;; k" := (bind c (fun x => k))
  (at level 100, c at next level, right associativity) : client_scope.
Notation "c ;; k" := (bind c (fun _ => k))
  (at level 100, right associativity) : client_scope.
Local Open Scope client_scope.

Definition emit (e : event) : M unit := fun w => (Ret tt, record_event e w).

(** [d.get(key, default)] as a method call: [AttributeError] unless [d] is a
    dict. *)
Definition py_get (d : value) (key : string) (default : value) : M value :=
  match d with
  | VDict _ => ret (dict_get d key default)
  | _ => raise AttributeError
  end.

(** The items a [for] loop draws from [v]: the elements of a list, the keys
    of a dict, the characters of a string; [TypeError] for the rest. *)
Definition py_iter (v : value) : M (list value) :=
  match v with
  | VList l => ret l
  | VDict items => ret (map (fun kv => VStr (fst kv)) items)
  | VStr s => ret (map (fun c => VStr (String c "")) (list_ascii_of_string s))
  | _ => raise TypeError
  end.

(** ** Configuration *)

Definition POLL_INTERVAL_INITIAL : Float.t := Float.of_Z 1.
Definition POLL_INTERVAL_MAX : Float.t := Float.of_Z 10.
Definition POLL_TIMEOUT : Z := 300.

(** The literal [1.5] of the backoff. *)
Definition backoff_factor : Float.t := Float.of_scaled 3 (-1).

(** ** GenieResult *)

Record GenieResult := {
  status : value;
  text : value;
  sql : value;
  columns : value;
  rows : value;
  error : option string;
  conversation_id : value;
  message_id : value
}.

(** The local variables of [_parse_response] that its loop updates. *)
Record gathered := {
  text_content : value;
  sql_content : value;
  got_columns : value;
  got_rows : value
}.

Definition nothing_gathered : gathered :=
  {| text_content := VNone; sql_content := VNone;
     got_columns := VList []; got_rows := VList [] |}.

Definition is_terminal (status : value) : bool :=
  eq_str status "COMPLETED" || eq_str status "FAILED"
  || eq_str status "CANCELLED".

Definition timeout_message : string :=
  "Genie did not respond within the timeout period.".

(** ** GenieClient *)

Section GenieClient.

(** The remote service behind [self.session]. *)
Variable session : server.

(** Python's [str()] on a decoded value. *)
Variable str : value -> string.

Definition send (r : request) : M reply :=
  fun w => (Ret (session (sent w) r), record_event (Request r) w).

(** [self.session.post] / [self.session.get] followed by
    [resp.raise_for_status()] and [resp.json()]. *)
Definition fetch_json (r : request) : M value :=
  resp <- send r ;;
  match resp with
  | NoResponse f => raise (exn_of_failure f)
  | Response status_code body =>
      if (400 <=? status_code)%Z && (status_code <? 600)%Z
      then raise (HTTPError status_code)
      else match body with
           | Some data => ret data
           | None => raise JSONDecodeError
           end
  end.

Definition _get_query_result (conversation_id message_id attachment_id : value)
  : M value :=
  fetch_json (GET (QueryResult conversation_id message_id attachment_id)).

(** One iteration of [for att in attachments].  The two lookups in the
    [try] block are on the same [qr], so they succeed or raise together and
    the handler never sees the columns updated without the rows. *)
Definition scan_attachment (status conversation_id message_id : value)
    (g : gathered) (att : value) : M gathered :=
  t <- py_get att "text" VNone ;;
  text_content <-
    (if truthy t then py_get t "content" (VStr "") else ret (text_content g)) ;;
  q <- py_get att "query" VNone ;;
  sql_content <-
    (if truthy q then py_get q "query" (VStr "") else ret (sql_content g)) ;;
  att_id <- py_get att "attachment_id" VNone ;;
  if truthy att_id && eq_str status "COMPLETED" then
    try_except
      (qr <- _get_query_result conversation_id message_id att_id ;;
       columns <- py_get qr "columns" (VList []) ;;
       rows <- py_get qr "rows" (VList []) ;;
       ret {| text_content := text_content; sql_content := sql_content;
              got_columns := columns; got_rows := rows |})
      (fun e =>
         emit (Warning e) ;;
         ret {| text_content := text_content; sql_content := sql_content;
                got_columns := got_columns g; got_rows := got_rows g |})
  else
    ret {| text_content := text_content; sql_content := sql_content;
           got_columns := got_columns g; got_rows := got_rows g |}.

Fixpoint scan_attachments (status conversation_id message_id : value)
    (attachments : list value) (g : gathered) : M gathered :=
  match attachments with
  | [] => ret g
  | att :: rest =>
      g' <- scan_attachment status conversation_id message_id g att ;;
      scan_attachments status conversation_id message_id rest g'
  end.

Definition _parse_response (data conversation_id message_id : value)
  : M GenieResult :=
  status <- py_get data "status" (VStr "UNKNOWN") ;;
  error <- py_get data "error" VNone ;;
  a <- py_get data "attachments" VNone ;;
  attachments <- py_iter (py_or a (VList [])) ;;
  g <- scan_attachments status conversation_id message_id attachments
         nothing_gathered ;;
  ret {| status := status;
         text := text_content g;
         sql := sql_content g;
         columns := got_columns g;
         rows := got_rows g;
         error := if truthy error then Some (str error) else None;
         conversation_id := conversation_id;
         message_id := message_id |}.

Definition timeout_result (conversation_id message_id : value) : GenieResult :=
  {| status := VStr "TIMEOUT";
     text := VNone;
     sql := VNone;
     columns := VList [];
     rows := VList [];
     error := Some timeout_message;
     conversation_id := conversation_id;
     message_id := message_id |}.

(** The [while] loop of [_poll]; [fuel] bounds the number of iterations. *)
Fixpoint poll_loop (fuel : nat) (conversation_id message_id : value)
    (interval elapsed : Float.t) : M GenieResult :=
  if Float.ltb elapsed (Float.of_Z POLL_TIMEOUT) then
    match fuel with
    | O => out_of_fuel
    | S fuel' =>
        emit (Sleep interval) ;;
        let elapsed := Float.add elapsed interval in
        data <- fetch_json (GET (Message conversation_id message_id)) ;;
        status <- py_get data "status" (VStr "") ;;
        if is_terminal status then
          _parse_response data conversation_id message_id
        else
          poll_loop fuel' conversation_id message_id
            (Float.min (Float.mul interval backoff_factor) POLL_INTERVAL_MAX)
            elapsed
    end
  else
    ret (timeout_result conversation_id message_id).

Definition _poll (fuel : nat) (conversation_id message_id : value)
  : M GenieResult :=
  poll_loop fuel conversation_id message_id POLL_INTERVAL_INITIAL Float.zero.

Definition question_body (question : string) : value :=
  VDict [("content", VStr question)].

Definition _start_conversation (fuel : nat) (question : string)
  : M GenieResult :=
  data <- fetch_json (POST StartConversation (question_body question)) ;;
  conv_id <- py_get data "conversation_id" (VStr "") ;;
  m <- py_get data "message_id" VNone ;;
  msg_id <- (if truthy m then ret m else py_get data "id" (VStr "")) ;;
  _poll fuel conv_id msg_id.

Definition _follow_up (fuel : nat) (conversation_id : string)
    (question : string) : M GenieResult :=
  data <- fetch_json (POST (Messages (VStr conversation_id))
                        (question_body question)) ;;
  msg_id <- py_get data "id" (VStr "") ;;
  _poll fuel (VStr conversation_id) msg_id.

Definition ask (fuel : nat) (question : string)
    (conversation_id : option string) : M GenieResult :=
  match conversation_id with
  | Some c =>
      if truthy (VStr c) then _follow_up fuel c question
      else _start_conversation fuel question
  | None => _start_conversation fuel question
  end.

End GenieClient.

(** ** The backoff schedule

    [interval] and [elapsed] do not depend on what the service answers:
    after [k] iterations of the loop of [_poll] they are [backoff k]. *)

Definition backoff_step (s : Float.t * Float.t) : Float.t * Float.t :=
  let (interval, elapsed) := s in
  (Float.min (Float.mul interval backoff_factor) POLL_INTERVAL_MAX,
   Float.add elapsed interval).

Definition backoff (k : nat) : Float.t * Float.t :=
  Nat.iter k backoff_step (POLL_INTERVAL_INITIAL, Float.zero).

(** The sleep of iteration [k] (counting from 0) and the time slept before
    it. *)
Definition delay (k : nat) : Float.t := fst (backoff k).
Definition slept (k : nat) : Float.t := snd (backoff k).

(** The number of iterations after which [elapsed < POLL_TIMEOUT] fails. *)
Definition MAX_ATTEMPTS : nat := 34.

Definition sleeps (tr : list event) : list Float.t :=
  flat_map (fun e => match e with Sleep d => [d] | _ => [] end) tr.

Definition requests (tr : list event) : list request :=
  flat_map (fun e => match e with Request r => [r] | _ => [] end) tr.

(** ** What a reply means to the client *)

(** How one iteration of the loop of [_poll] reads the reply to its status
    request. *)
Inductive observation :=
| Failure (e : exn)
| Terminal (data : value)
| Pending.

Definition http_error (status_code : Z) : bool :=
  (400 <=? status_code)%Z && (status_code <? 600)%Z.

Definition observe (r : reply) : observation :=
  match r with
  | NoResponse f => Failure (exn_of_failure f)
  | Response status_code body =>
      if http_error status_code then Failure (HTTPError status_code)
      else match body with
           | None => Failure JSONDecodeError
           | Some data =>
               if is_dict data then
                 if is_terminal (dict_get data "status" (VStr ""))
                 then Terminal data else Pending
               else Failure AttributeError
           end
  end.

(** The request [ask] submits, and how it reads the reply. *)
Definition follow_up_mode (conversation_id : option string) : bool :=
  match conversation_id with Some c => truthy (VStr c) | None => false end.

Definition submit_request (question : string) (conversation_id : option string)
  : request :=
  match conversation_id with
  | Some c =>
      if truthy (VStr c) then POST (Messages (VStr c)) (question_body question)
      else POST StartConversation (question_body question)
  | None => POST StartConversation (question_body question)
  end.

Inductive submission :=
| Rejected (e : exn)
| Accepted (conversation_id message_id : value).

Definition submitted (conversation_id : option string) (r : reply) : submission :=
  match r with
  | NoResponse f => Rejected (exn_of_failure f)
  | Response status_code body =>
      if http_error status_code then Rejected (HTTPError status_code)
      else match body with
           | None => Rejected JSONDecodeError
           | Some data =>
               if is_dict data then
                 match conversation_id with
                 | Some c =>
                     if truthy (VStr c)
                     then Accepted (VStr c) (dict_get data "id" (VStr ""))
                     else Accepted (dict_get data "conversation_id" (VStr ""))
                            (py_or (dict_get data "message_id" VNone)
                                   (dict_get data "id" (VStr "")))
                 | None =>
                     Accepted (dict_get data "conversation_id" (VStr ""))
                       (py_or (dict_get data "message_id" VNone)
                              (dict_get data "id" (VStr "")))
                 end
               else Rejected AttributeError
           end
  end.

(** The events of iterations [k], ..., [k + n - 1] of the loop. *)
Definition poll_events (url : endpoint) (k n : nat) : list event :=
  flat_map (fun j => [Sleep (delay j); Request (GET url)]) (seq k n).

Definition after_polls (url : endpoint) (k n : nat) (w : world) : world :=
  {| sent := sent w + n; trace := trace w ++ poll_events url k n |}.

(** ** Attachments *)

Definition attachment_list (data : value) : list value :=
  match py_or (dict_get data "attachments" VNone) (VList []) with
  | VList l => l
  | _ => []
  end.

Definition has_text (att : value) : bool := truthy (dict_get att "text" VNone).
Definition has_query (att : value) : bool := truthy (dict_get att "query" VNone).
Definition has_result (att : value) : bool :=
  truthy (dict_get att "attachment_id" VNone).

Definition text_of (att : value) : value :=
  dict_get (dict_get att "text" VNone) "content" (VStr "").
Definition query_of (att : value) : value :=
  dict_get (dict_get att "query" VNone) "query" (VStr "").

(** The last element of [l] that satisfies [p]. *)
Definition last_with (p : value -> bool) (l : list value) : option value :=
  find p (rev l).

Definition last_text (attachments : list value) : value :=
  match last_with has_text attachments with
  | Some att => text_of att
  | None => VNone
  end.

Definition last_query (attachments : list value) : value :=
  match last_with has_query attachments with
  | Some att => query_of att
  | None => VNone
  end.

(** The shape the service documents for a message: a dict whose attachments,
    when present, are a list of dicts whose [text] and [query] payloads are
    dicts. *)
Definition payload_ok (v : value) : bool := negb (truthy v) || is_dict v.

Definition attachment_ok (att : value) : bool :=
  is_dict att && payload_ok (dict_get att "text" VNone)
  && payload_ok (dict_get att "query" VNone).

Definition well_formed (data : value) : bool :=
  is_dict data
  && match py_or (dict_get data "attachments" VNone) (VList []) with
     | VList l => forallb attachment_ok l
     | _ => false
     end.

(** What the [try] block of [_parse_response] makes of the reply to its
    query-result request: the exception it catches, or the columns and the
    rows. *)
Definition query_result (r : reply) : exn + value * value :=
  match r with
  | NoResponse f => inl (exn_of_failure f)
  | Response status_code body =>
      if http_error status_code then inl (HTTPError status_code)
      else match body with
           | None => inl JSONDecodeError
           | Some qr =>
               if is_dict qr
               then inr (dict_get qr "columns" (VList []),
                         dict_get qr "rows" (VList []))
               else inl AttributeError
           end
  end.

Definition fetch_fails (r : reply) : bool :=
  match query_result r with inl _ => true | inr _ => false end.

(** The identifiers [_parse_response] fetches a table for, in order. *)
Definition result_ids (attachments : list value) : list value :=
  map (fun att => dict_get att "attachment_id" VNone)
    (filter has_result attachments).

(** Every query-result request of a run that sends them from request number
    [base] on fails. *)
Definition fetches_fail (session : server) (conv msg : value) (base : nat)
    (ids : list value) : Prop :=
  forall i a, nth_error ids i = Some a ->
    fetch_fails (session (base + i) (GET (QueryResult conv msg a))) = true.

(** The updates one attachment makes to the gathered text and query. *)
Definition gather (g : gathered) (att : value) (columns rows : value) : gathered :=
  {| text_content := if has_text att then text_of att else text_content g;
     sql_content := if has_query att then query_of att else sql_content g;
     got_columns := columns;
     got_rows := rows |}.

(** The events [_parse_response] may add to the trace: warnings, and
    query-result requests for the identifier of one of the attachments, sent
    only under the status [COMPLETED]. *)
Definition table_request (st conv msg : value) (attachments : list value)
    (e : event) : Prop :=
  match e with
  | Warning _ => True
  | Request (GET (QueryResult c m a)) =>
      c = conv /\ m = msg /\ eq_str st "COMPLETED" = true
      /\ exists att, In att attachments /\ has_result att = true
                     /\ a = dict_get att "attachment_id" VNone
  | _ => False
  end.

(** The [GenieResult] that [_parse_response] builds from [data] and what its
    loop gathered. *)
Definition result_of (str : value -> string) (data conv msg : value)
    (g : gathered) : GenieResult :=
  {| status := dict_get data "status" (VStr "UNKNOWN");
     text := text_content g;
     sql := sql_content g;
     columns := got_columns g;
     rows := got_rows g;
     error := if truthy (dict_get data "error" VNone)
              then Some (str (dict_get data "error" VNone)) else None;
     conversation_id := conv;
     message_id := msg |}.

(** ** Runs of [ask] *)

(** The [n] status requests sent from request number [base] on are all
    answered with a status that is not terminal. *)
Definition pending_until (session : server) (url : endpoint) (base n : nat)
  : Prop :=
  forall j, j < n -> observe (session (base + j) (GET url)) = Pending.

(** The four ways the loop of [_poll], entered with the state of iteration
    [k] in world [w], can end after [n] pending answers: the budget is
    spent, the fuel is, a status request fails, or a terminal message is
    handed to [_parse_response]. *)
Definition poll_ends (session : server) (str : value -> string) (fuel : nat)
    (conv msg : value) (k : nat) (w : world)
    (o : outcome GenieResult) (w' : world) (n : nat) : Prop :=
  let url := Message conv msg in
  (k + n = MAX_ATTEMPTS
   /\ o = Ret (timeout_result conv msg) /\ w' = after_polls url k n w)
  \/ (k + n < MAX_ATTEMPTS /\ n = fuel
      /\ o = OutOfFuel /\ w' = after_polls url k n w)
  \/ (k + n < MAX_ATTEMPTS /\ n < fuel
      /\ exists e,
           observe (session (sent w + n) (GET url)) = Failure e
           /\ o = Raise e /\ w' = after_polls url k (S n) w)
  \/ (k + n < MAX_ATTEMPTS /\ n < fuel
      /\ exists data,
           observe (session (sent w + n) (GET url)) = Terminal data
           /\ _parse_response session str data conv msg
                (after_polls url k (S n) w) = (o, w')).

(** The world once the question is submitted. *)
Definition submitted_world (question : string) (cid : option string) : world :=
  record_event (Request (submit_request question cid)) initial.

(** A call in which the submission is accepted, the first [n] status
    requests find the message pending and the next one finds the terminal
    message [data], within the budget. *)
Definition run_answered (session : server) (question : string)
    (cid : option string) (conv msg : value) (n : nat) (data : value) : Prop :=
  submitted cid (session 0 (submit_request question cid)) = Accepted conv msg
  /\ pending_until session (Message conv msg) 1 n
  /\ observe (session (S n) (GET (Message conv msg))) = Terminal data
  /\ n < MAX_ATTEMPTS.

(** A call in which the submission is accepted and every status request
    within the budget finds the message pending. *)
Definition run_pending (session : server) (question : string)
    (cid : option string) (conv msg : value) : Prop :=
  submitted cid (session 0 (submit_request question cid)) = Accepted conv msg
  /\ pending_until session (Message conv msg) 1 MAX_ATTEMPTS.

(** The exception a transport failure (no response, or a 4xx/5xx status)
    raises from [raise_for_status] or from the request itself. *)
Definition transport_error (r : reply) : option exn :=
  match r with
  | NoResponse f => Some (exn_of_failure f)
  | Response status_code _ =>
      if http_error status_code then Some (HTTPError status_code) else None
  end.

(** A call whose submission fails in the transport with [e]. *)
Definition submit_failure (session : server) (question : string)
    (cid : option string) (e : exn) : Prop :=
  transport_error (session 0 (submit_request question cid)) = Some e.

(** A call whose status request number [n] fails in the transport with [e],
    after [n] pending answers. *)
Definition poll_failure (session : server) (question : string)
    (cid : option string) (conv msg : value) (n : nat) (e : exn) : Prop :=
  submitted cid (session 0 (submit_request question cid)) = Accepted conv msg
  /\ pending_until session (Message conv msg) 1 n
  /\ transport_error (session (S n) (GET (Message conv msg))) = Some e
  /\ n < MAX_ATTEMPTS.

(** ** Shapes of attachments and of the schedule named by the specification *)

(** An attachment that carries a text payload and no query, and one that
    carries a query payload and no text. *)
Definition text_only (att : value) : bool :=
  is_dict att && is_dict (dict_get att "text" VNone) && has_text att
  && negb (has_query att).

Definition query_only (att : value) : bool :=
  is_dict att && is_dict (dict_get att "query" VNone) && has_query att
  && negb (has_text att).

(** The first delays as the specification lists them, and as binary64
    arithmetic produces them. *)
Definition listed_delays : list Q :=
  [1; 3 # 2; 9 # 4; 27 # 8; 81 # 16; 759 # 100; 10; 10; 10]%Q.

Definition computed_delays : list Q :=
  [1; 3 # 2; 9 # 4; 27 # 8; 81 # 16; 243 # 32; 10; 10; 10]%Q.

Definition denotes (d : Float.t) (q : Q) : bool :=
  match Float.to_Q d with Some x => Qeq_bool x q | None => false end.

Fixpoint same_delays (ds : list Float.t) (qs : list Q) : bool :=
  match ds, qs with
  | [], [] => true
  | d :: ds', q :: qs' => denotes d q && same_delays ds' qs'
  | _, _ => false
  end.

(** The specification's reading of the failure kinds: the exception tells
    the phase, so what [ask] raises when the submission fails in the
    transport is never what it raises when a status request does. *)
Definition phases_told_apart : Prop :=
  forall str fuel session1 question1 cid1 e1 w1
         session2 question2 cid2 e2 w2,
    (exists e, submit_failure session1 question1 cid1 e) ->
    ask session1 str fuel question1 cid1 initial = (Raise e1, w1) ->
    (exists conv msg n e,
       poll_failure session2 question2 cid2 conv msg n e /\ n < fuel) ->
    ask session2 str fuel question2 cid2 initial = (Raise e2, w2) ->
    e1 <> e2.

(** ** Sample services *)

(** A [str] that is right on strings. *)
Definition sample_str (v : value) : string :=
  match v with VStr s => s | _ => "<object>" end.

Definition ok (data : value) : reply := Response 200 (Some data).

Definition started : reply :=
  ok (VDict [("conversation_id", VStr "c1"); ("message_id", VStr "m1")]).

Definition with_status (st : string) (fields : list (string * value)) : value :=
  VDict (("status", VStr st) :: fields).

Definition text_attachment : value :=
  VDict [("text", VDict [("content", VStr "42 orders")])].

Definition query_attachment : value :=
  VDict [("query", VDict [("query", VStr "SELECT COUNT(*) FROM orders")]);
         ("attachment_id", VStr "a1")].

(** Never reaches a terminal status. *)
Definition always_pending : server :=
  fun _ r =>
    match r with
    | POST _ _ => started
    | GET _ => ok (with_status "EXECUTING_QUERY" [])
    end.

(** Completes on the third status request with a text and a query
    attachment; the query-result request fails. *)
Definition completes_without_table : server :=
  fun n r =>
    match r with
    | POST _ _ => started
    | GET (Message _ _) =>
        if n <? 3 then ok (with_status "EXECUTING_QUERY" [])
        else ok (with_status "COMPLETED"
                   [("attachments",
                     VList [text_attachment; query_attachment])])
    | GET _ => Response 500 None
    end.

(** Fails on the second status request, after a text was produced. *)
Definition fails_with_error : server :=
  fun n r =>
    match r with
    | POST _ _ => started
    | GET _ =>
        if n <? 2 then ok (with_status "EXECUTING_QUERY" [])
        else ok (with_status "FAILED"
                   [("error", VStr "Ambiguous question");
                    ("attachments", VList [text_attachment])])
    end.

(** Refuses the submission. *)
Definition submit_down : server := fun _ _ => Response 503 None.

(** Accepts the submission and refuses the status requests. *)
Definition poll_down : server :=
  fun _ r =>
    match r with
    | POST _ _ => started
    | GET _ => Response 503 None
    end.

(** ** Sample calls *)

Definition a_question : string := "How many orders were placed last week?".

Definition completed_message : value :=
  with_status "COMPLETED"
    [("attachments", VList [text_attachment; query_attachment])].

Definition failed_message : value :=
  with_status "FAILED"
    [("error", VStr "Ambiguous question");
     ("attachments", VList [text_attachment])].

(** What [ask] returns from [completes_without_table], and the world it
    leaves. *)
Definition completed_result : GenieResult :=
  {| status := VStr "COMPLETED";
     text := VStr "42 orders";
     sql := VStr "SELECT COUNT(*) FROM orders";
     columns := VList [];
     rows := VList [];
     error := None;
     conversation_id := VStr "c1";
     message_id := VStr "m1" |}.

Definition completed_world : world :=
  record_event (Warning (HTTPError 500))
    (record_event
       (Request (GET (QueryResult (VStr "c1") (VStr "m1") (VStr "a1"))))
       (after_polls (Message (VStr "c1") (VStr "m1")) 0 3
          (submitted_world a_question None))).

(** What a follow-up in conversation [c7] returns from [fails_with_error]. *)
Definition failed_result : GenieResult :=
  {| status := VStr "FAILED";
     text := VStr "42 orders";
     sql := VNone;
     columns := VList [];
     rows := VList [];
     error := Some "Ambiguous question";
     conversation_id := VStr "c7";
     message_id := VStr "" |}.

Definition failed_world : world :=
  after_polls (Message (VStr "c7") (VStr "")) 0 2
    (submitted_world a_question (Some "c7")).

Definition timed_out_world : world :=
  after_polls (Message (VStr "c1") (VStr "m1")) 0 MAX_ATTEMPTS
    (submitted_world a_question None).

(** ** The table of a completed message *)

(** What the query-result requests for [ids], sent from request number
    [base] on, come to. *)
Fixpoint tables (session : server) (conv msg : value) (base : nat)
    (ids : list value) : list (exn + value * value) :=
  match ids with
  | [] => []
  | a :: rest =>
      query_result (session base (GET (QueryResult conv msg a)))
        :: tables session conv msg (S base) rest
  end.

Definition fetched (t : exn + value * value) : bool :=
  match t with inr _ => true | inl _ => false end.

(** The columns and rows of the last fetch that succeeded, [init] when none
    did. *)
Definition last_table (ts : list (exn + value * value)) (init : value * value)
  : value * value :=
  match find fetched (rev ts) with
  | Some (inr table) => table
  | _ => init
  end.

Definition failures (ts : list (exn + value * value)) : list exn :=
  flat_map (fun t => match t with inl e => [e] | inr _ => [] end) ts.

Definition warnings (tr : list event) : list exn :=
  flat_map (fun e => match e with Warning x => [x] | _ => [] end) tr.

(** The events of the query-result requests for [ids]: each request, and a
    warning after it when it fails. *)
Fixpoint table_events (session : server) (conv msg : value) (base : nat)
    (ids : list value) : list event :=
  match ids with
  | [] => []
  | a :: rest =>
      let r := GET (QueryResult conv msg a) in
      Request r
        :: match query_result (session base r) with
           | inl e => [Warning e]
           | inr _ => []
           end
        ++ table_events session conv msg (S base) rest
  end.

(** Completes at the first status request with three attachments; the table
    of [a1] is served, the one of [a2] is not. *)
Definition served_table : value :=
  VDict [("columns", VList [VDict [("name", VStr "orders")]]);
         ("rows", VList [VList [VInt 42]])].

Definition completes_with_table : server :=
  fun _ r =>
    match r with
    | POST _ _ => started
    | GET (Message _ _) =>
        ok (with_status "COMPLETED"
              [("attachments",
                VList [text_attachment; query_attachment;
                       VDict [("attachment_id", VStr "a2")]])])
    | GET (QueryResult _ _ (VStr "a1")) => ok served_table
    | GET _ => Response 404 None
    end.

Definition tabled_message : value :=
  with_status "COMPLETED"
    [("attachments",
      VList [text_attachment; query_attachment;
             VDict [("attachment_id", VStr "a2")]])].

(** Completes at the first status request with a malformed attachment. *)
Definition malformed_message : value :=
  with_status "COMPLETED" [("attachments", VList [VStr "text"])].

Definition completes_malformed : server :=
  fun _ r =>
    match r with
    | POST _ _ => started
    | GET _ => ok malformed_message
    end.

(** Answers the submission with a body that is not an object. *)
Definition submits_a_list : server := fun _ _ => ok (VList []).

(** Answers a follow-up with both [message_id] and [id]. *)
Definition follow_up_reply : value :=
  VDict [("message_id", VStr "m-ignored"); ("id", VStr "m2")].

Definition follows_up : server :=
  fun _ r =>
    match r with
    | POST _ _ => ok follow_up_reply
    | GET _ => ok (with_status "CANCELLED" [("error", VStr "stopped")])
    end.

(** What [ask] returns from [completes_with_table], and the world it
    leaves. *)
Definition tabled_result : GenieResult :=
  {| status := VStr "COMPLETED";
     text := VStr "42 orders";
     sql := VStr "SELECT COUNT(*) FROM orders";
     columns := VList [VDict [("name", VStr "orders")]];
     rows := VList [VList [VInt 42]];
     error := None;
     conversation_id := VStr "c1";
     message_id := VStr "m1" |}.

Definition tabled_world : world :=
  record_event (Warning (HTTPError 404))
    (record_event
       (Request (GET (QueryResult (VStr "c1") (VStr "m1") (VStr "a2"))))
       (record_event
          (Request (GET (QueryResult (VStr "c1") (VStr "m1") (VStr "a1"))))
          (after_polls (Message (VStr "c1") (VStr "m1")) 0 1
             (submitted_world a_question None)))).

(** What a follow-up in conversation [c7] returns from [follows_up]. *)
Definition cancelled_message : value :=
  with_status "CANCELLED" [("error", VStr "stopped")].

Definition cancelled_result : GenieResult :=
  {| status := VStr "CANCELLED";
     text := VNone;
     sql := VNone;
     columns := VList [];
     rows := VList [];
     error := Some "stopped";
     conversation_id := VStr "c7";
     message_id := VStr "m2" |}.

Definition cancelled_world : world :=
  after_polls (Message (VStr "c7") (VStr "m2")) 0 1
    (submitted_world a_question (Some "c7")).

(** * The Teams bot

    [01-teams-bot/src/app.py]: [_format_response] renders a [GenieResult]
    as the markdown of a chat message, and [on_message] handles one incoming
    activity, keeping the Genie conversation of each Teams thread in
    [_conv_map]. *)

(** ** Strings *)

Definition nl : string := String (ascii_of_nat 10) "".

(** [f"{n}"] for a non-negative integer. *)
Definition decimal (n : nat) : string :=
  NilEmpty.string_of_uint (Nat.to_uint n).

(** What stops [_format_response]: [str.join] meets an item that is not a
    string (TypeError); [enumerate] is given something that cannot be
    iterated (TypeError); [.get] or [.values] is called on something that
    has no such method (AttributeError); [rows[:20]] is taken of something
    that cannot be sliced (TypeError; for a dict, KeyError from Python 3.12
    on). *)
Inductive render_error :=
| NotAString
| NotIterable
| NoSuchMethod
| NotSliceable.

(** [sep.join(items)]. *)
Fixpoint strings_of (items : list value) : render_error + list string :=
  match items with
  | [] => inr []
  | VStr s :: rest =>
      match strings_of rest with
      | inr l => inr (s :: l)
      | inl e => inl e
      end
  | _ :: _ => inl NotAString
  end.

Definition join (sep : string) (items : list value) : render_error + string :=
  match strings_of items with
  | inr l => inr (String.concat sep l)
  | inl e => inl e
  end.

(** [d.values()] for the dict that [items] represents: one value for each
    key, in the order of the keys. *)
Fixpoint values_from (seen : list string) (items : list (string * value))
  : list value :=
  match items with
  | [] => []
  | (k, v) :: rest =>
      if existsb (String.eqb k) seen then values_from seen rest
      else v :: values_from (k :: seen) rest
  end.

Definition dict_values (items : list (string * value)) : list value :=
  values_from [] items.

(** ** _format_response *)

Section Rendering.

(** Python's [str()] on a decoded value. *)
Variable str : value -> string.

(** [result.error or 'Unknown error']. *)
Definition error_or (error : option string) (default : string) : string :=
  match error with
  | Some s => if String.eqb s "" then default else s
  | None => default
  end.

(** [[c.get("name", f"col_{i}") for i, c in enumerate(columns)]], from
    index [i] on. *)
Fixpoint names_from (i : nat) (columns : list value)
  : render_error + list value :=
  match columns with
  | [] => inr []
  | c :: rest =>
      if is_dict c then
        match names_from (S i) rest with
        | inr names =>
            inr (dict_get c "name" (VStr ("col_" ++ decimal i)%string)
                   :: names)
        | inl e => inl e
        end
      else inl NoSuchMethod
  end.

Definition column_names (columns : value) : render_error + list value :=
  match columns with
  | VList l => names_from 0 l
  | VDict [] | VStr "" => inr []
  | VDict _ | VStr _ => inl NoSuchMethod
  | _ => inl NotIterable
  end.

(** The markdown line of one row. *)
Definition row_line (row : value) : render_error + string :=
  match row with
  | VList values =>
      inr ("| " ++ String.concat " | " (map str values) ++ " |")%string
  | VDict items =>
      inr ("| " ++ String.concat " | " (map str (dict_values items))
           ++ " |")%string
  | _ => inl NoSuchMethod
  end.

Fixpoint row_lines (rows : list value) : render_error + list string :=
  match rows with
  | [] => inr []
  | row :: rest =>
      match row_line row with
      | inr line =>
          match row_lines rest with
          | inr lines => inr (line :: lines)
          | inl e => inl e
          end
      | inl e => inl e
      end
  end.

(** [for row in result.rows[:20]: ...]; the characters of a string have no
    [.values]. *)
Definition first_rows (rows : value) : render_error + list string :=
  match rows with
  | VList l => row_lines (firstn 20 l)
  | VStr "" => inr []
  | VStr _ => inl NoSuchMethod
  | _ => inl NotSliceable
  end.

Definition row_count (rows : value) : nat :=
  match rows with VList l => List.length l | _ => 0 end.

Definition footer (n : nat) : string :=
  (nl ++ nl ++ "*Showing 20 of " ++ decimal n ++ " rows.*")%string.

(** The block under [if result.columns and result.rows:]. *)
Definition render_table (columns rows : value) : render_error + string :=
  match column_names columns with
  | inl e => inl e
  | inr col_names =>
      match join " | " col_names with
      | inl e => inl e
      | inr joined =>
          let header := ("| " ++ joined ++ " |")%string in
          let sep :=
            ("| "
             ++ String.concat " | " (repeat "---" (List.length col_names))
             ++ " |")%string in
          match first_rows rows with
          | inl e => inl e
          | inr rows_md =>
              let table := String.concat nl (header :: sep :: rows_md) in
              inr (if 20 <? row_count rows
                   then (table ++ footer (row_count rows))%string
                   else table)
          end
      end
  end.

Definition sql_block (sql : value) : string :=
  (nl ++ "**Generated SQL:**" ++ nl ++ "```sql" ++ nl ++ str sql ++ nl
   ++ "```")%string.

Definition failed_prefix : string := "❌ Genie could not answer: ".

Definition timeout_reply : string :=
  "⏳ The query is taking too long. Please try a simpler question.".

Definition empty_reply : string := "Genie returned an empty response.".

Definition _format_response (result : GenieResult) : render_error + string :=
  if eq_str (status result) "FAILED" then
    inr (failed_prefix ++ error_or (error result) "Unknown error")%string
  else if eq_str (status result) "TIMEOUT" then
    inr timeout_reply
  else
    let parts := if truthy (text result) then [text result] else [] in
    let parts :=
      if truthy (sql result)
      then parts ++ [VStr (sql_block (sql result))] else parts in
    match
      (if truthy (columns result) && truthy (rows result) then
         match render_table (columns result) (rows result) with
         | inr table => inr (parts ++ [VStr (nl ++ table)%string])
         | inl e => inl e
         end
       else inr parts)
    with
    | inl e => inl e
    | inr [] => inr empty_reply
    | inr parts => join (nl ++ nl)%string parts
    end.

End Rendering.

(** ** on_message *)

(** The fields of the incoming activity that [on_message] reads:
    [activity.type], [activity.text] and [activity.conversation.id]. *)
Record activity := {
  activity_type : string;
  activity_text : option string;
  conversation : string
}.

Inductive outgoing :=
| Typing
| Text (s : string).

(** What a turn does, in order: the activities it sends, the call it makes
    to [genie.ask] (with the world that call leaves) and the errors it
    logs. *)
Inductive bot_event :=
| Sent (a : outgoing)
| Asked (question : string) (conversation_id : value) (w : world)
| Logged (e : exn).

(** How [on_message] ends: it returns, an exception of [_format_response]
    escapes it, or the fuel of the poll loop ran out. *)
Inductive turn_end :=
| Handled
| Escaped (e : render_error)
| Unfinished.

(** [_conv_map], a dict from the Teams conversation to the Genie
    conversation, as an association list read by [lookup]. *)
Definition conv_map := list (string * value).

(** [_conv_map.get(key)]. *)
Definition map_get (m : conv_map) (key : string) : value :=
  match lookup m key with Some v => v | None => VNone end.

(** [_conv_map.pop(key, None)]. *)
Definition map_pop (m : conv_map) (key : string) : conv_map :=
  filter (fun kv => negb (String.eqb (fst kv) key)) m.

(** [_conv_map[key] = v]. *)
Definition map_set (m : conv_map) (key : string) (v : value) : conv_map :=
  (key, v) :: map_pop m key.

Definition is_reset (command : string) : bool :=
  String.eqb command "/reset" || String.eqb command "/new"
  || String.eqb command "new conversation".

Definition reset_reply : string := "🔄 Started a new Genie conversation.".

Section Bot.

(** The Genie service as the call of this turn sees it. *)
Variable session : server.

(** Python's [str()] on a decoded value and on an exception, [str.strip()]
    and [str.lower()]. *)
Variable str : value -> string.
Variable exn_text : exn -> string.
Variable strip : string -> string.
Variable lower : string -> string.

(** [_follow_up] and [ask] as the bot calls them: with whatever
    [_conv_map] holds for the thread, a string or not. *)
Definition follow_up_with (fuel : nat) (conversation_id : value)
    (question : string) : M GenieResult :=
  data <- fetch_json session (POST (Messages conversation_id)
                                (question_body question)) ;;
  msg_id <- py_get data "id" (VStr "") ;;
  _poll session str fuel conversation_id msg_id.

Definition ask_with (fuel : nat) (question : string) (conversation_id : value)
  : M GenieResult :=
  if truthy conversation_id
  then follow_up_with fuel conversation_id question
  else _start_conversation session str fuel question.

Definition api_error_reply (e : exn) : string :=
  ("⚠️ Genie API error: `" ++ exn_text e ++ "`")%string.

(** One turn: its end, the new [_conv_map] and its events.  Sending an
    activity is taken to succeed. *)
Definition on_message (fuel : nat) (act : activity) (m : conv_map)
  : turn_end * conv_map * list bot_event :=
  if negb (String.eqb (activity_type act) "message") then (Handled, m, [])
  else
    let user_text :=
      strip (match activity_text act with Some s => s | None => "" end) in
    if String.eqb user_text "" then (Handled, m, [])
    else
      let teams_conv_id := conversation act in
      if is_reset (lower user_text) then
        (Handled, map_pop m teams_conv_id, [Sent (Text reset_reply)])
      else
        let genie_conv_id := map_get m teams_conv_id in
        match ask_with fuel user_text genie_conv_id initial with
        | (Raise e, w) =>
            (Handled, m,
             [Sent Typing; Asked user_text genie_conv_id w; Logged e;
              Sent (Text (api_error_reply e))])
        | (OutOfFuel, w) =>
            (Unfinished, m, [Sent Typing; Asked user_text genie_conv_id w])
        | (Ret result, w) =>
            let m' :=
              if truthy (conversation_id result)
              then map_set m teams_conv_id (conversation_id result)
              else m in
            match _format_response str result with
            | inr response =>
                (Handled, m',
                 [Sent Typing; Asked user_text genie_conv_id w;
                  Sent (Text response)])
            | inl e =>
                (Escaped e, m',
                 [Sent Typing; Asked user_text genie_conv_id w])
            end
        end.

End Bot.

(** ** Sample text functions: [strip] and [lower] on ASCII text *)

Definition is_space (c : ascii) : bool :=
  let n := nat_of_ascii c in
  (9 <=? n) && (n <=? 13) || (28 <=? n) && (n <=? 32).

Fixpoint lstrip (s : string) : string :=
  match s with
  | String c rest => if is_space c then lstrip rest else s
  | EmptyString => EmptyString
  end.

Fixpoint rstrip (s : string) : string :=
  match s with
  | String c rest =>
      let r := rstrip rest in
      if String.eqb r "" && is_space c then EmptyString else String c r
  | EmptyString => EmptyString
  end.

Definition ascii_strip (s : string) : string := rstrip (lstrip s).

Definition lower_ascii (c : ascii) : ascii :=
  let n := nat_of_ascii c in
  if (65 <=? n) && (n <=? 90) then ascii_of_nat (n + 32) else c.

Fixpoint ascii_lower (s : string) : string :=
  match s with
  | String c rest => String (lower_ascii c) (ascii_lower rest)
  | EmptyString => EmptyString
  end.

Definition sample_exn_text (e : exn) : string :=
  match e with
  | ConnectionError => "connection failed"
  | RequestTimeout => "timed out"
  | HTTPError _ => "HTTP error"
  | JSONDecodeError => "not JSON"
  | AttributeError => "no such attribute"
  | TypeError => "wrong type"
  end.

Definition a_thread : string := "19:thread@teams".

Definition says (s : string) : activity :=
  {| activity_type := "message"; activity_text := Some s;
     conversation := a_thread |}.

(** ** Results that render *)

Definition is_str (v : value) : bool :=
  match v with VStr _ => true | _ => false end.

Definition is_list (v : value) : bool :=
  match v with VList _ => true | _ => false end.

(** A column descriptor whose name, when it has one, is a string, and a row
    that is a list or an object. *)
Definition column_ok (c : value) : bool :=
  is_dict c && is_str (dict_get c "name" (VStr "")).

Definition row_ok (row : value) : bool := is_list row || is_dict row.

(** The results of the documented types: the text is a string when there is
    one, and the table, when there is one, is a list of column descriptors
    and a list of rows (only the first 20 rows are looked at). *)
Definition renderable (r : GenieResult) : bool :=
  (negb (truthy (text r)) || is_str (text r))
  && (negb (truthy (columns r) && truthy (rows r))
      || match columns r, rows r with
         | VList cs, VList rs =>
             forallb column_ok cs && forallb row_ok (firstn 20 rs)
         | _, _ => false
         end).

(** A result with twenty-one rows, the last of which is not a row. *)
Definition long_result : GenieResult :=
  {| status := VStr "COMPLETED";
     text := VNone;
     sql := VNone;
     columns := VList [VDict [("name", VStr "n")]; VDict []];
     rows := VList (repeat (VList [VStr "1"; VStr "2"]) 20 ++ [VInt 0]);
     error := None;
     conversation_id := VStr "c1";
     message_id := VStr "m1" |}.

(** ** Turns that reach Genie *)

(** What [_conv_map.get] gives [ask] as its [conversation_id: Optional[str]]:
    [None] for a thread without a conversation, a string otherwise. *)
Definition id_value (cid : option string) : value :=
  match cid with Some c => VStr c | None => VNone end.

(** An activity that makes [on_message] ask Genie the question [user_text]:
    a message whose stripped text is not empty and is not a reset command. *)
Definition asks (strip lower : string -> string) (act : activity)
    (user_text : string) : Prop :=
  activity_type act = "message"
  /\ user_text
     = strip (match activity_text act with Some s => s | None => "" end)
  /\ user_text <> ""
  /\ is_reset (lower user_text) = false.

(** An activity that makes [on_message] forget the conversation of its
    thread. *)
Definition resets (strip lower : string -> string) (act : activity) : Prop :=
  activity_type act = "message"
  /\ strip (match activity_text act with Some s => s | None => "" end) <> ""
  /\ is_reset
       (lower (strip (match activity_text act with
                      | Some s => s
                      | None => ""
                      end))) = true.

Definition first_request (w : world) : option request :=
  hd_error (requests (trace w)).

(** A conversation map in which the sample thread has conversation [c7],
    and the columns and rows of [long_result]. *)
Definition a_map : conv_map := [("19:other@teams", VStr "c3"); (a_thread, VStr "c7")].

Definition long_columns : value := VList [VDict [("name", VStr "n")]; VDict []].

Definition long_rows : list value :=
  repeat (VList [VStr "1"; VStr "2"]) 20 ++ [VInt 0].

(** A result whose text is a number, as a message whose text content is
    [7] gives. *)
Definition numeric_result : GenieResult :=
  {| status := VStr "COMPLETED";
     text := VInt 7;
     sql := VNone;
     columns := VList [];
     rows := VList [];
     error := None;
     conversation_id := VStr "c1";
     message_id := VStr "m1" |}.

(** ** Two readings of the specification that the code does not follow *)

(** An attachment whose text (respectively query) is itself a non-empty
    value, and the text and query a client would keep if it kept the last
    non-empty ones, as the specification words it. *)
Definition nonempty_text (att : value) : bool :=
  has_text att && truthy (text_of att).

Definition nonempty_query (att : value) : bool :=
  has_query att && truthy (query_of att).

Definition last_nonempty_text (attachments : list value) : value :=
  match last_with nonempty_text attachments with
  | Some att => text_of att
  | None => VNone
  end.

Definition last_nonempty_query (attachments : list value) : value :=
  match last_with nonempty_query attachments with
  | Some att => query_of att
  | None => VNone
  end.

(** The specification's wording: the result of a call that is answered with
    the terminal message [data] holds the last non-empty text and the last
    non-empty query of its attachments. *)
Definition keeps_last_nonempty : Prop :=
  forall session str fuel question cid conv msg n data r w',
    run_answered session question cid conv msg n data ->
    n < fuel ->
    ask session str fuel question cid initial = (Ret r, w') ->
    text r = last_nonempty_text (attachment_list data)
    /\ sql r = last_nonempty_query (attachment_list data).

(** Completes at the first status request with two text attachments, the
    second of which has an empty content. *)
Definition overwritten_message : value :=
  with_status "COMPLETED"
    [("attachments",
      VList [text_attachment; VDict [("text", VDict [("content", VStr "")])]])].

Definition completes_with_empty_text : server :=
  fun _ r =>
    match r with
    | POST _ _ => started
    | GET _ => ok overwritten_message
    end.

Definition overwritten_result : GenieResult :=
  {| status := VStr "COMPLETED";
     text := VStr "";
     sql := VNone;
     columns := VList [];
     rows := VList [];
     error := None;
     conversation_id := VStr "c1";
     message_id := VStr "m1" |}.

Definition overwritten_world : world :=
  after_polls (Message (VStr "c1") (VStr "m1")) 0 1
    (submitted_world a_question None).

(** Whether two exceptions are of the same class. *)
Definition same_class (e1 e2 : exn) : bool :=
  match e1, e2 with
  | ConnectionError, ConnectionError => true
  | RequestTimeout, RequestTimeout => true
  | HTTPError _, HTTPError _ => true
  | JSONDecodeError, JSONDecodeError => true
  | AttributeError, AttributeError => true
  | TypeError, TypeError => true
  | _, _ => false
  end.

(** The specification's wording: there is one kind of error, the
    submission error, that [ask] raises whenever the submission fails in
    the transport. *)
Definition raises_one_submission_error : Prop :=
  exists submission_error : exn,
    forall session str fuel question cid e w,
      (exists e0, submit_failure session question cid e0) ->
      ask session str fuel question cid initial = (Raise e, w) ->
      same_class e submission_error = true.

(** Does not answer at all. *)
Definition unreachable : server := fun _ _ => NoResponse ConnectionFailed.

(** * Properties *)

(** ** The schedule, by computation *)

Lemma backoff_S (k : nat) : backoff (S k) = backoff_step (backoff k).
Proof. reflexivity. Qed.

Lemma backoff_pair (k : nat) : backoff k = (delay k, slept k).
Proof. unfold delay, slept. now destruct (backoff k). Qed.

Lemma delay_S (k : nat) :
  delay (S k) =
  Float.min (Float.mul (delay k) backoff_factor) POLL_INTERVAL_MAX.
Proof.
  unfold delay at 1. rewrite backoff_S, (backoff_pair k). reflexivity.
Qed.

Lemma slept_S (k : nat) : slept (S k) = Float.add (slept k) (delay k).
Proof.
  unfold slept at 1. rewrite backoff_S, (backoff_pair k). reflexivity.
Qed.

Lemma below (n : nat) (p : nat -> bool) :
  forallb p (seq 0 n) = true -> forall k, k < n -> p k = true.
Proof.
  intros H k Hk. rewrite forallb_forall in H. apply H, in_seq. lia.
Qed.

Lemma budget_left (k : nat) :
  k < MAX_ATTEMPTS ->
  Float.ltb (slept k) (Float.of_Z POLL_TIMEOUT) = true.
Proof.
  apply (below MAX_ATTEMPTS
           (fun k => Float.ltb (slept k) (Float.of_Z POLL_TIMEOUT))).
  vm_compute. reflexivity.
Qed.

Lemma budget_spent :
  Float.ltb (slept MAX_ATTEMPTS) (Float.of_Z POLL_TIMEOUT) = false.
Proof. vm_compute. reflexivity. Qed.

Lemma delay_bounds (k : nat) :
  k < MAX_ATTEMPTS ->
  Float.leb (Float.of_Z 1) (delay k) = true
  /\ Float.leb (delay k) (Float.of_Z 10) = true.
Proof.
  intros Hk. apply andb_true_iff. revert k Hk.
  apply (below MAX_ATTEMPTS
           (fun k => Float.leb (Float.of_Z 1) (delay k)
                     && Float.leb (delay k) (Float.of_Z 10))).
  vm_compute. reflexivity.
Qed.

(** From the seventh sleep on the interval stays at the cap, for ever. *)
Lemma slept_bounded (k : nat) :
  k <= MAX_ATTEMPTS ->
  Float.leb (slept k) (Float.add (Float.of_Z POLL_TIMEOUT) POLL_INTERVAL_MAX)
  = true.
Proof.
  intros Hk.
  apply (below (S MAX_ATTEMPTS)
           (fun k => Float.leb (slept k)
                       (Float.add (Float.of_Z POLL_TIMEOUT) POLL_INTERVAL_MAX)));
    [vm_compute; reflexivity | lia].
Qed.

Lemma delay_capped (k : nat) : 6 <= k -> delay k = POLL_INTERVAL_MAX.
Proof.
  induction 1 as [|k Hk IH].
  - vm_compute. reflexivity.
  - rewrite delay_S, IH. vm_compute. reflexivity.
Qed.

Lemma delay_never_above_cap (k : nat) :
  Float.leb (delay k) POLL_INTERVAL_MAX = true.
Proof.
  destruct (le_lt_dec 6 k) as [Hk|Hk].
  - rewrite (delay_capped k Hk). vm_compute. reflexivity.
  - apply delay_bounds. unfold MAX_ATTEMPTS. lia.
Qed.

Lemma delays_at_least_one (n : nat) :
  n <= MAX_ATTEMPTS ->
  Forall (fun d => Float.leb POLL_INTERVAL_INITIAL d = true)
    (map delay (seq 0 n)).
Proof.
  intros Hn. apply Forall_forall. intros d Hd.
  apply in_map_iff in Hd. destruct Hd as (k & <- & Hk).
  apply in_seq in Hk. apply delay_bounds. lia.
Qed.

(** ** Unfolding equations of the methods *)

Section Equations.

Variable session : server.
Variable str : value -> string.

Lemma fetch_json_eq (r : request) (w : world) :
  fetch_json session r w =
  (match session (sent w) r with
   | NoResponse f => Raise (exn_of_failure f)
   | Response status_code body =>
       if http_error status_code then Raise (HTTPError status_code)
       else match body with
            | Some data => Ret data
            | None => Raise JSONDecodeError
            end
   end, record_event (Request r) w).
Proof.
  unfold fetch_json, send, bind, http_error.
  destruct (session (sent w) r) as [f|code body]; [reflexivity|].
  destruct (_ && _); [reflexivity|]. now destruct body.
Qed.

Lemma poll_loop_timeout fuel conv msg interval elapsed w :
  Float.ltb elapsed (Float.of_Z POLL_TIMEOUT) = false ->
  poll_loop session str fuel conv msg interval elapsed w =
  (Ret (timeout_result conv msg), w).
Proof. intros H. destruct fuel; cbn [poll_loop]; rewrite H; reflexivity. Qed.

Lemma poll_loop_exhausted conv msg interval elapsed w :
  Float.ltb elapsed (Float.of_Z POLL_TIMEOUT) = true ->
  poll_loop session str 0 conv msg interval elapsed w = (OutOfFuel, w).
Proof. intros H. cbn [poll_loop]. rewrite H. reflexivity. Qed.

Lemma poll_loop_step fuel conv msg interval elapsed w :
  Float.ltb elapsed (Float.of_Z POLL_TIMEOUT) = true ->
  poll_loop session str (S fuel) conv msg interval elapsed w =
  let w' := record_event (Request (GET (Message conv msg)))
              (record_event (Sleep interval) w) in
  match observe (session (sent w) (GET (Message conv msg))) with
  | Failure e => (Raise e, w')
  | Terminal data => _parse_response session str data conv msg w'
  | Pending =>
      poll_loop session str fuel conv msg
        (Float.min (Float.mul interval backoff_factor) POLL_INTERVAL_MAX)
        (Float.add elapsed interval) w'
  end.
Proof.
  intros H. cbn [poll_loop]. rewrite H. unfold bind at 1. unfold emit.
  unfold bind at 1. rewrite fetch_json_eq. simpl sent.
  unfold observe.
  destruct (session (sent w) _) as [f|code body]; [reflexivity|].
  destruct (http_error code); [reflexivity|].
  destruct body as [data|]; [|reflexivity].
  destruct data; try reflexivity.
  unfold py_get, bind, ret. simpl is_dict. cbv iota.
  destruct (is_terminal _); reflexivity.
Qed.

Lemma ask_eq fuel question cid w :
  ask session str fuel question cid w =
  let w' := record_event (Request (submit_request question cid)) w in
  match submitted cid (session (sent w) (submit_request question cid)) with
  | Rejected e => (Raise e, w')
  | Accepted conv msg => _poll session str fuel conv msg w'
  end.
Proof.
  unfold ask, submit_request, submitted.
  destruct cid as [c|]; [destruct (truthy (VStr c))|];
    unfold _follow_up, _start_conversation, bind;
    rewrite fetch_json_eq;
    (destruct (session (sent w) _) as [f|code body]; [reflexivity|]);
    (destruct (http_error code); [reflexivity|]);
    (destruct body as [data|]; [|reflexivity]);
    destruct data; try reflexivity;
    unfold py_get, ret, py_or; simpl is_dict; cbv iota;
    try reflexivity;
    destruct (truthy _); reflexivity.
Qed.

End Equations.

(** ** The poll phase *)

Lemma after_polls_0 url k w : after_polls url k 0 w = w.
Proof.
  destruct w as [n tr]. unfold after_polls, poll_events. simpl.
  now rewrite Nat.add_0_r, app_nil_r.
Qed.

Lemma after_polls_S url k n w :
  after_polls url k (S n) w =
  after_polls url (S k) n
    (record_event (Request (GET url)) (record_event (Sleep (delay k)) w)).
Proof.
  unfold after_polls, poll_events, record_event. simpl.
  rewrite <- !app_assoc. simpl. f_equal. lia.
Qed.

Lemma sleeps_app tr1 tr2 : sleeps (tr1 ++ tr2) = sleeps tr1 ++ sleeps tr2.
Proof. unfold sleeps. now rewrite flat_map_app. Qed.

Lemma requests_app tr1 tr2 : requests (tr1 ++ tr2) = requests tr1 ++ requests tr2.
Proof. unfold requests. now rewrite flat_map_app. Qed.

Lemma sleeps_poll_events url k n : sleeps (poll_events url k n) = map delay (seq k n).
Proof.
  revert k. induction n as [|n IH]; intros k; [reflexivity|].
  unfold poll_events in *. simpl. now rewrite <- IH.
Qed.

Lemma requests_poll_events url k n :
  requests (poll_events url k n) = repeat (GET url) n.
Proof.
  revert k. induction n as [|n IH]; intros k; [reflexivity|].
  unfold poll_events in *. simpl. now rewrite <- (IH (S k)).
Qed.

Section Polling.

Variable session : server.
Variable str : value -> string.

Lemma pending_until_S url base n :
  pending_until session url base (S n) ->
  observe (session base (GET url)) = Pending
  /\ pending_until session url (S base) n.
Proof.
  intros H. split.
  - specialize (H 0%nat). rewrite Nat.add_0_r in H. apply H. lia.
  - intros j Hj. specialize (H (S j)).
    rewrite Nat.add_succ_r in H. apply H. lia.
Qed.

(** While the answers are pending the loop goes on, with the state of the
    schedule. *)
Lemma poll_loop_pending conv msg n :
  forall fuel k w,
    k + n <= MAX_ATTEMPTS ->
    pending_until session (Message conv msg) (sent w) n ->
    poll_loop session str (n + fuel) conv msg (delay k) (slept k) w =
    poll_loop session str fuel conv msg (delay (k + n)) (slept (k + n))
      (after_polls (Message conv msg) k n w).
Proof.
  induction n as [|n IH]; intros fuel k w Hk Hp.
  - now rewrite Nat.add_0_r, after_polls_0.
  - apply pending_until_S in Hp. destruct Hp as [H0 Hp].
    change (S n + fuel)%nat with (S (n + fuel)).
    rewrite poll_loop_step by (apply budget_left; lia).
    cbv zeta. rewrite H0, <- delay_S, <- slept_S, after_polls_S.
    rewrite IH by (simpl; trivial; lia).
    now rewrite Nat.add_succ_r.
Qed.

Lemma poll_loop_inv conv msg :
  forall fuel k w o w',
    k <= MAX_ATTEMPTS ->
    poll_loop session str fuel conv msg (delay k) (slept k) w = (o, w') ->
    exists n,
      pending_until session (Message conv msg) (sent w) n
      /\ poll_ends session str fuel conv msg k w o w' n.
Proof.
  induction fuel as [|fuel IH]; intros k w o w' Hk Hrun.
  - exists 0%nat. split; [intros j Hj; lia|].
    unfold poll_ends. rewrite Nat.add_0_r, after_polls_0.
    apply Nat.lt_eq_cases in Hk. destruct Hk as [Hk|Hk].
    + rewrite poll_loop_exhausted in Hrun by now apply budget_left.
      inversion Hrun; subst. right; left. auto.
    + subst k. rewrite poll_loop_timeout in Hrun by exact budget_spent.
      inversion Hrun; subst. left. auto.
  - apply Nat.lt_eq_cases in Hk. destruct Hk as [Hk|Hk].
    + rewrite poll_loop_step in Hrun by now apply budget_left.
      cbv zeta in Hrun.
      destruct (observe (session (sent w) (GET (Message conv msg))))
        as [e|data|] eqn:Hobs.
      * exists 0%nat. split; [intros j Hj; lia|].
        unfold poll_ends. rewrite !Nat.add_0_r.
        inversion Hrun; subst. right; right; left.
        repeat split; try lia. exists e.
        now rewrite after_polls_S, after_polls_0.
      * exists 0%nat. split; [intros j Hj; lia|].
        unfold poll_ends. rewrite !Nat.add_0_r.
        right; right; right. repeat split; try lia. exists data.
        now rewrite after_polls_S, after_polls_0.
      * rewrite <- delay_S, <- slept_S in Hrun.
        apply IH in Hrun; [|lia]. destruct Hrun as [n [Hp He]].
        simpl sent in Hp, He.
        exists (S n). split.
        { intros [|j] Hj; [now rewrite Nat.add_0_r|].
          rewrite Nat.add_succ_r. apply (Hp j). lia. }
        unfold poll_ends in *.
        rewrite !(after_polls_S (Message conv msg) k).
        rewrite !Nat.add_succ_r. simpl Nat.add in He.
        destruct He as [He|[He|[He|He]]].
        { left. destruct He as (?&?&?). repeat split; trivial; lia. }
        { right; left. destruct He as (?&?&?&?). repeat split; trivial; lia. }
        { right; right; left. destruct He as (?&?&e&?&?&?).
          repeat split; try lia. exists e. auto. }
        { right; right; right. destruct He as (?&?&data&?&?).
          repeat split; try lia. exists data. auto. }
    + subst k. rewrite poll_loop_timeout in Hrun by exact budget_spent.
      inversion Hrun; subst.
      exists 0%nat. split; [intros j Hj; lia|].
      unfold poll_ends. rewrite Nat.add_0_r, after_polls_0. left. auto.
Qed.

End Polling.

(** ** Scanning the attachments *)

Lemma find_app {A} (p : A -> bool) (l1 l2 : list A) :
  find p (l1 ++ l2) =
  match find p l1 with Some x => Some x | None => find p l2 end.
Proof.
  induction l1 as [|a l1 IH]; [reflexivity|].
  simpl. now destruct (p a).
Qed.

Lemma last_with_cons p a l :
  last_with p (a :: l) =
  match last_with p l with
  | Some x => Some x
  | None => if p a then Some a else None
  end.
Proof.
  unfold last_with. simpl rev. rewrite find_app. simpl.
  destruct (find p (rev l)); [reflexivity|]. now destruct (p a).
Qed.

Lemma payload_get t key default fallback w :
  payload_ok t = true ->
  (if truthy t then py_get t key default else ret fallback) w =
  (Ret (if truthy t then dict_get t key default else fallback), w).
Proof.
  unfold payload_ok. intros H.
  destruct (truthy t) eqn:Ht; [|reflexivity].
  destruct t; simpl in H; try discriminate. reflexivity.
Qed.

Lemma payload_get_bad t key default fallback w :
  payload_ok t = false ->
  (if truthy t then py_get t key default else ret fallback) w =
  (Raise AttributeError, w).
Proof.
  unfold payload_ok. intros H.
  destruct (truthy t) eqn:Ht; [|discriminate].
  destruct t; simpl in H; try discriminate; reflexivity.
Qed.

Section Scanning.

Variable session : server.
Variable str : value -> string.

Lemma scan_attachment_bad st conv msg g att w :
  attachment_ok att = false ->
  scan_attachment session st conv msg g att w = (Raise AttributeError, w).
Proof.
  unfold attachment_ok, scan_attachment. intros H.
  destruct att; try reflexivity. cbn [is_dict andb] in H.
  unfold bind at 1. unfold py_get at 1, ret at 1.
  unfold bind at 1.
  destruct (payload_ok (dict_get (VDict items) "text" VNone)) eqn:Ht.
  - rewrite payload_get by exact Ht.
    unfold bind at 1. unfold py_get at 1, ret at 1.
    unfold bind at 1. cbn [andb] in H.
    now rewrite payload_get_bad by exact H.
  - now rewrite payload_get_bad by exact Ht.
Qed.

Lemma scan_attachment_ok st conv msg g att w :
  attachment_ok att = true ->
  scan_attachment session st conv msg g att w =
  if has_result att && eq_str st "COMPLETED" then
    let r := GET (QueryResult conv msg (dict_get att "attachment_id" VNone)) in
    match query_result (session (sent w) r) with
    | inl e =>
        (Ret (gather g att (got_columns g) (got_rows g)),
         record_event (Warning e) (record_event (Request r) w))
    | inr (columns, rows) =>
        (Ret (gather g att columns rows), record_event (Request r) w)
    end
  else (Ret (gather g att (got_columns g) (got_rows g)), w).
Proof.
  unfold attachment_ok, scan_attachment. intros H.
  destruct att; try discriminate. cbn [is_dict andb] in H.
  apply andb_true_iff in H. destruct H as [Ht Hq].
  unfold bind at 1. unfold py_get at 1, ret at 1.
  unfold bind at 1. rewrite payload_get by exact Ht.
  unfold bind at 1. unfold py_get at 1, ret at 1.
  unfold bind at 1. rewrite payload_get by exact Hq.
  unfold bind at 1. unfold py_get at 1, ret at 1.
  unfold has_result, gather, has_text, has_query, text_of, query_of.
  destruct (truthy (dict_get (VDict items) "attachment_id" VNone)
            && eq_str st "COMPLETED"); [|reflexivity].
  cbv zeta. unfold try_except, _get_query_result.
  unfold bind at 1. rewrite fetch_json_eq. unfold query_result.
  destruct (session (sent w) _) as [f|code body]; [reflexivity|].
  destruct (http_error code); [reflexivity|].
  destruct body as [qr|]; [|reflexivity].
  destruct qr; reflexivity.
Qed.

Ltac scan_head H a w :=
  cbn [scan_attachments] in H; unfold bind at 1 in H;
  destruct (attachment_ok a) eqn:?;
  [ rewrite scan_attachment_ok in H by assumption
  | rewrite scan_attachment_bad in H by assumption ];
  [ destruct (has_result a && eq_str _ "COMPLETED") eqn:?;
    [ cbv zeta in H;
      destruct (query_result (session (sent w) _)) as [?e|[?c ?r]] eqn:? | ]
  | ].

(** A scan that returns has seen well-formed attachments only, and kept
    the text and the query of the last attachment that has one. *)
Lemma scan_attachments_gathered st conv msg l :
  forall g w g' w',
    scan_attachments session st conv msg l g w = (Ret g', w') ->
    forallb attachment_ok l = true
    /\ text_content g' =
       match last_with has_text l with
       | Some att => text_of att
       | None => text_content g
       end
    /\ sql_content g' =
       match last_with has_query l with
       | Some att => query_of att
       | None => sql_content g
       end.
Proof.
  induction l as [|a l IH]; intros g w g' w' H.
  - inversion H; subst. auto.
  - scan_head H a w; try discriminate;
      apply IH in H; destruct H as (Hok & Ht & Hq);
      rewrite !last_with_cons, Ht, Hq; cbn [forallb andb gather
        text_content sql_content];
      (split; [now apply andb_true_iff|]);
      destruct (last_with has_text l), (last_with has_query l);
      destruct (has_text a), (has_query a); auto.
Qed.

(** On well-formed attachments the scan returns, whatever the service
    answers. *)
Lemma scan_attachments_total st conv msg l :
  forall g w,
    forallb attachment_ok l = true ->
    exists g' w', scan_attachments session st conv msg l g w = (Ret g', w').
Proof.
  induction l as [|a l IH]; intros g w H.
  - now exists g, w.
  - cbn [forallb] in H. apply andb_true_iff in H. destruct H as [Ha Hl].
    cbn [scan_attachments]. unfold bind at 1.
    rewrite scan_attachment_ok by exact Ha.
    destruct (has_result a && eq_str st "COMPLETED"); [cbv zeta|].
    + destruct (query_result _) as [e|[c r]]; now apply IH.
    + now apply IH.
Qed.

Lemma table_request_cons st conv msg a l evs :
  Forall (table_request st conv msg l) evs ->
  Forall (table_request st conv msg (a :: l)) evs.
Proof.
  apply Forall_impl. intros [[url body|[| | |c m i]]|d|e]; simpl; auto.
  intros (-> & -> & Hst & att & Hin & Hres & ->).
  repeat split; trivial. exists att. auto.
Qed.

Lemma table_request_here st conv msg a l :
  has_result a && eq_str st "COMPLETED" = true ->
  table_request st conv msg (a :: l)
    (Request (GET (QueryResult conv msg (dict_get a "attachment_id" VNone)))).
Proof.
  intros H. apply andb_true_iff in H. destruct H as [Hres Hst].
  simpl. repeat split; trivial. exists a. auto.
Qed.

(** A scan sends nothing but the query-result requests of its attachments. *)
Lemma scan_attachments_events st conv msg l :
  forall g w o w',
    scan_attachments session st conv msg l g w = (o, w') ->
    exists evs,
      trace w' = trace w ++ evs
      /\ Forall (table_request st conv msg l) evs.
Proof.
  induction l as [|a l IH]; intros g w o w' H.
  - inversion H; subst. exists []. now rewrite app_nil_r.
  - scan_head H a w.
    + apply IH in H. destruct H as (evs & Htr & Hev).
      eexists (_ :: _ :: evs). split.
      * rewrite Htr. cbn [trace record_event]. rewrite <- !app_assoc.
        reflexivity.
      * constructor; [now apply table_request_here|].
        constructor; [exact I|]. now apply table_request_cons.
    + apply IH in H. destruct H as (evs & Htr & Hev).
      eexists (_ :: evs). split.
      * rewrite Htr. cbn [trace record_event]. rewrite <- !app_assoc.
        reflexivity.
      * constructor; [now apply table_request_here|].
        now apply table_request_cons.
    + apply IH in H. destruct H as (evs & Htr & Hev).
      exists evs. split; [exact Htr|]. now apply table_request_cons.
    + inversion H; subst. exists []. now rewrite app_nil_r.
Qed.


Lemma result_ids_cons a l :
  result_ids (a :: l) =
  if has_result a
  then dict_get a "attachment_id" VNone :: result_ids l
  else result_ids l.
Proof. unfold result_ids. simpl. now destruct (has_result a). Qed.

(** When the status is not [COMPLETED], or every query-result request
    fails, the columns and rows stay as they were. *)
Lemma scan_attachments_no_table st conv msg l :
  forall g w g' w',
    (eq_str st "COMPLETED" = true ->
     fetches_fail session conv msg (sent w) (result_ids l)) ->
    scan_attachments session st conv msg l g w = (Ret g', w') ->
    got_columns g' = got_columns g /\ got_rows g' = got_rows g.
Proof.
  induction l as [|a l IH]; intros g w g' w' Hf H.
  - inversion H; subst. auto.
  - scan_head H a w; try discriminate.
    + apply IH in H; [exact H|]. intros Hst.
      match goal with Hb : _ && _ = true |- _ =>
        apply andb_true_iff in Hb; destruct Hb as [Hres _] end.
      specialize (Hf Hst). rewrite result_ids_cons, Hres in Hf.
      intros i x Hi. cbn [sent record_event].
      specialize (Hf (S i) x Hi). now rewrite Nat.add_succ_r in Hf.
    + exfalso.
      match goal with Hb : _ && _ = true |- _ =>
        apply andb_true_iff in Hb; destruct Hb as [Hres Hst] end.
      specialize (Hf Hst). rewrite result_ids_cons, Hres in Hf.
      specialize (Hf 0 _ eq_refl). rewrite Nat.add_0_r in Hf.
      unfold fetch_fails in Hf.
      match goal with Hq : query_result _ = inr _ |- _ =>
        rewrite Hq in Hf end.
      discriminate.
    + apply IH in H; [exact H|]. intros Hst. specialize (Hf Hst).
      rewrite result_ids_cons in Hf.
      match goal with Hb : _ && _ = false |- _ =>
        rewrite Hst, andb_true_r in Hb; rewrite Hb in Hf end.
      exact Hf.
Qed.

End Scanning.

(** ** Normalising a terminal message *)

(** [E] says that [_parse_response] raised: use it in [H]. *)
Ltac raised E H :=
  match type of E with
  | ex _ => let e := fresh "e" in destruct E as [e E]; rewrite E in H
  end.

Lemma py_or_cases a b : py_or a b = b \/ (py_or a b = a /\ truthy a = true).
Proof. unfold py_or. destruct (truthy a); auto. Qed.

Section Parsing.

Variable session : server.
Variable str : value -> string.

Lemma parse_response_dict data conv msg w :
  is_dict data = true ->
  _parse_response session str data conv msg w =
  bind (py_iter (py_or (dict_get data "attachments" VNone) (VList [])))
    (fun attachments =>
       bind (scan_attachments session
               (dict_get data "status" (VStr "UNKNOWN")) conv msg
               attachments nothing_gathered)
         (fun g => ret (result_of str data conv msg g))) w.
Proof. intros Hd. destruct data; try discriminate. reflexivity. Qed.

Lemma parse_response_eq data conv msg w :
  is_dict data = true ->
  match py_or (dict_get data "attachments" VNone) (VList []) with
  | VList l =>
      _parse_response session str data conv msg w =
      bind (scan_attachments session
              (dict_get data "status" (VStr "UNKNOWN")) conv msg l
              nothing_gathered)
           (fun g => ret (result_of str data conv msg g)) w
  | _ => exists e, _parse_response session str data conv msg w = (Raise e, w)
  end.
Proof.
  intros Hd.
  rewrite parse_response_dict by exact Hd.
  destruct (py_or_cases (dict_get data "attachments" VNone)
              (VList [])) as [H|[H Ht]]; rewrite H.
  - reflexivity.
  - destruct (dict_get data "attachments" VNone) as
      [|b|z|f|s0|l|kv]; try (now exists TypeError); try reflexivity.
    + destruct s0 as [|c s0]; [discriminate|].
      exists AttributeError. reflexivity.
    + destruct kv as [|[k v] kv]; [discriminate|].
      exists AttributeError. reflexivity.
Qed.

(** A result that [_parse_response] returns, field by field. *)
Lemma parse_response_ret data conv msg w r w' :
  is_dict data = true ->
  _parse_response session str data conv msg w = (Ret r, w') ->
  well_formed data = true
  /\ status r = dict_get data "status" (VStr "UNKNOWN")
  /\ text r = last_text (attachment_list data)
  /\ sql r = last_query (attachment_list data)
  /\ error r = (if truthy (dict_get data "error" VNone)
                then Some (str (dict_get data "error" VNone)) else None)
  /\ conversation_id r = conv
  /\ message_id r = msg.
Proof.
  intros Hd H. pose proof (parse_response_eq data conv msg w Hd) as E.
  unfold well_formed, last_text, last_query, attachment_list.
  rewrite Hd.
  destruct (py_or (dict_get data "attachments" VNone) (VList []));
    try (raised E H; discriminate).
  rewrite E in H. unfold bind in H.
  destruct (scan_attachments _ _ _ _ _ _ _) as [[g| |] w1] eqn:Hs;
    try discriminate.
  inversion H; subst.
  apply scan_attachments_gathered in Hs. destruct Hs as (Hok & Ht & Hq).
  cbn [result_of status text sql error conversation_id message_id andb].
  rewrite Ht, Hq. repeat split; trivial.
Qed.

(** On a well-formed message [_parse_response] returns. *)
Lemma parse_response_total data conv msg w :
  well_formed data = true ->
  exists r w', _parse_response session str data conv msg w = (Ret r, w').
Proof.
  unfold well_formed. intros H. apply andb_true_iff in H.
  destruct H as [Hd Hl].
  pose proof (parse_response_eq data conv msg w Hd) as E.
  destruct (py_or (dict_get data "attachments" VNone) (VList []));
    try discriminate.
  destruct (scan_attachments_total session
              (dict_get data "status" (VStr "UNKNOWN")) conv msg l
              nothing_gathered w Hl) as (g & w' & Hs).
  exists (result_of str data conv msg g), w'.
  rewrite E. unfold bind. now rewrite Hs.
Qed.

Lemma parse_response_events data conv msg w o w' :
  is_dict data = true ->
  _parse_response session str data conv msg w = (o, w') ->
  exists evs,
    trace w' = trace w ++ evs
    /\ Forall (table_request (dict_get data "status" (VStr "UNKNOWN"))
                 conv msg (attachment_list data)) evs.
Proof.
  intros Hd H. pose proof (parse_response_eq data conv msg w Hd) as E.
  unfold attachment_list.
  destruct (py_or (dict_get data "attachments" VNone) (VList []));
    try (raised E H; inversion H; subst;
         exists []; now rewrite app_nil_r).
  rewrite E in H. unfold bind in H.
  destruct (scan_attachments _ _ _ _ _ _ _) as [[g| |] w1] eqn:Hs;
    inversion H; subst;
    now apply scan_attachments_events in Hs.
Qed.


Lemma parse_response_no_table data conv msg w r w' :
  is_dict data = true ->
  (eq_str (dict_get data "status" (VStr "UNKNOWN")) "COMPLETED" = true ->
   fetches_fail session conv msg (sent w)
     (result_ids (attachment_list data))) ->
  _parse_response session str data conv msg w = (Ret r, w') ->
  columns r = VList [] /\ rows r = VList [].
Proof.
  intros Hd Hf H. pose proof (parse_response_eq data conv msg w Hd) as E.
  unfold attachment_list in Hf.
  destruct (py_or (dict_get data "attachments" VNone) (VList []));
    try (raised E H; discriminate).
  rewrite E in H. unfold bind in H.
  destruct (scan_attachments _ _ _ _ _ _ _) as [[g| |] w1] eqn:Hs;
    try discriminate.
  inversion H; subst.
  now apply scan_attachments_no_table in Hs.
Qed.

End Parsing.

(** ** Whole calls *)

Lemma after_polls_snoc url k n w :
  record_event (Request (GET url))
    (record_event (Sleep (delay (k + n))) (after_polls url k n w)) =
  after_polls url k (S n) w.
Proof.
  unfold after_polls, poll_events, record_event. cbn [sent trace].
  rewrite seq_S, flat_map_app. cbn [flat_map].
  rewrite <- !app_assoc, Nat.add_succ_r. reflexivity.
Qed.

Lemma observe_terminal r data :
  observe r = Terminal data ->
  is_dict data = true
  /\ is_terminal (dict_get data "status" (VStr "")) = true.
Proof.
  unfold observe. destruct r as [f|code body]; [discriminate|].
  destruct (http_error code); [discriminate|].
  destruct body as [d|]; [|discriminate].
  destruct (is_dict d) eqn:Hd; [|discriminate].
  destruct (is_terminal _) eqn:Ht; [|discriminate].
  intros H. inversion H; subst. auto.
Qed.

Lemma is_terminal_cases v :
  is_terminal v = true ->
  v = VStr "COMPLETED" \/ v = VStr "FAILED" \/ v = VStr "CANCELLED".
Proof.
  unfold is_terminal, eq_str. destruct v; try discriminate.
  intros H. apply orb_true_iff in H. destruct H as [H|H].
  - apply orb_true_iff in H.
    destruct H as [H|H]; apply String.eqb_eq in H; subst; auto.
  - apply String.eqb_eq in H; subst; auto.
Qed.

(** The status [_parse_response] reads again is the one [_poll] found
    terminal. *)
Lemma terminal_status data :
  is_terminal (dict_get data "status" (VStr "")) = true ->
  dict_get data "status" (VStr "UNKNOWN") = dict_get data "status" (VStr "").
Proof.
  unfold dict_get. destruct data; try discriminate.
  destruct (lookup items "status"); [reflexivity|discriminate].
Qed.

Lemma transport_error_observe r e :
  transport_error r = Some e -> observe r = Failure e.
Proof.
  unfold transport_error, observe. destruct r as [f|code body].
  - now intros [= <-].
  - destruct (http_error code); [now intros [= <-]|discriminate].
Qed.

Lemma transport_error_submitted cid r e :
  transport_error r = Some e -> submitted cid r = Rejected e.
Proof.
  unfold transport_error, submitted. destruct r as [f|code body].
  - now intros [= <-].
  - destruct (http_error code); [now intros [= <-]|discriminate].
Qed.

Lemma submitted_follow_up c r conv msg :
  c <> "" -> submitted (Some c) r = Accepted conv msg -> conv = VStr c.
Proof.
  intros Hc. unfold submitted.
  assert (Ht : truthy (VStr c) = true).
  { simpl. destruct (String.eqb_spec c ""); [contradiction|reflexivity]. }
  rewrite Ht. destruct r as [f|code body]; [discriminate|].
  destruct (http_error code); [discriminate|].
  destruct body as [d|]; [|discriminate].
  destruct (is_dict d); [|discriminate].
  now intros [= <- _].
Qed.

Section Asking.

Variable session : server.
Variable str : value -> string.

Lemma poll_start fuel conv msg w :
  _poll session str fuel conv msg w =
  poll_loop session str fuel conv msg (delay 0) (slept 0) w.
Proof. reflexivity. Qed.

Lemma ask_submitted fuel question cid :
  ask session str fuel question cid initial =
  match submitted cid (session 0 (submit_request question cid)) with
  | Rejected e => (Raise e, submitted_world question cid)
  | Accepted conv msg =>
      poll_loop session str fuel conv msg (delay 0) (slept 0)
        (submitted_world question cid)
  end.
Proof. rewrite ask_eq. reflexivity. Qed.

(** A rejected submission ends the call at once. *)
Lemma ask_rejected fuel question cid e :
  submit_failure session question cid e ->
  ask session str fuel question cid initial =
  (Raise e, submitted_world question cid).
Proof.
  unfold submit_failure. intros H. rewrite ask_submitted.
  now rewrite (transport_error_submitted cid _ e H).
Qed.

Lemma ask_through fuel question cid conv msg n :
  submitted cid (session 0 (submit_request question cid)) = Accepted conv msg ->
  pending_until session (Message conv msg) 1 n ->
  n <= MAX_ATTEMPTS ->
  ask session str (n + fuel) question cid initial =
  poll_loop session str fuel conv msg (delay n) (slept n)
    (after_polls (Message conv msg) 0 n (submitted_world question cid)).
Proof.
  intros Hs Hp Hn. rewrite ask_submitted, Hs.
  now rewrite (poll_loop_pending session str conv msg n) by assumption.
Qed.

(** A terminal message within the budget is handed to [_parse_response]. *)
Lemma ask_answered fuel question cid conv msg n data :
  run_answered session question cid conv msg n data ->
  n < fuel ->
  ask session str fuel question cid initial =
  _parse_response session str data conv msg
    (after_polls (Message conv msg) 0 (S n) (submitted_world question cid)).
Proof.
  intros (Hs & Hp & Ho & Hn) Hf.
  replace fuel with (n + S (fuel - S n)) by lia.
  rewrite (ask_through _ question cid conv msg n) by (trivial; lia).
  rewrite poll_loop_step by now apply budget_left.
  cbv zeta. cbn [after_polls sent submitted_world record_event initial].
  change (1 + n) with (S n). rewrite Ho.
  f_equal. apply (after_polls_snoc (Message conv msg) 0 n).
Qed.

(** A failing status request ends the call with its exception. *)
Lemma ask_poll_failure fuel question cid conv msg n e :
  poll_failure session question cid conv msg n e ->
  n < fuel ->
  ask session str fuel question cid initial =
  (Raise e,
   after_polls (Message conv msg) 0 (S n) (submitted_world question cid)).
Proof.
  intros (Hs & Hp & He & Hn) Hf.
  replace fuel with (n + S (fuel - S n)) by lia.
  rewrite (ask_through _ question cid conv msg n) by (trivial; lia).
  rewrite poll_loop_step by now apply budget_left.
  cbv zeta. cbn [after_polls sent submitted_world record_event initial].
  apply transport_error_observe in He.
  change (1 + n) with (S n). rewrite He.
  f_equal. apply (after_polls_snoc (Message conv msg) 0 n).
Qed.

(** With every answer pending the call ends when the budget is spent. *)
Lemma ask_pending fuel question cid conv msg :
  run_pending session question cid conv msg ->
  MAX_ATTEMPTS <= fuel ->
  ask session str fuel question cid initial =
  (Ret (timeout_result conv msg),
   after_polls (Message conv msg) 0 MAX_ATTEMPTS
     (submitted_world question cid)).
Proof.
  intros (Hs & Hp) Hf.
  replace fuel with (MAX_ATTEMPTS + (fuel - MAX_ATTEMPTS)) by lia.
  rewrite (ask_through _ question cid conv msg MAX_ATTEMPTS)
    by (trivial; lia).
  apply poll_loop_timeout. exact budget_spent.
Qed.

(** Every call is a submission followed, when it is accepted, by one of
    the four ends of the loop. *)
Lemma ask_inv fuel question cid o w' :
  ask session str fuel question cid initial = (o, w') ->
  match submitted cid (session 0 (submit_request question cid)) with
  | Rejected e => o = Raise e /\ w' = submitted_world question cid
  | Accepted conv msg =>
      exists n,
        pending_until session (Message conv msg) 1 n
        /\ poll_ends session str fuel conv msg 0
             (submitted_world question cid) o w' n
  end.
Proof.
  rewrite ask_submitted.
  destruct (submitted cid _) as [e|conv msg].
  - now intros [= <- <-].
  - intros H. apply poll_loop_inv in H; [exact H|].
    unfold MAX_ATTEMPTS. lia.
Qed.

End Asking.

(** ** Shapes of the traces and of the results *)

Lemma table_request_no_sleep st conv msg l evs :
  Forall (table_request st conv msg l) evs -> sleeps evs = [].
Proof.
  induction 1 as [|e evs He _ IH]; [reflexivity|].
  destruct e as [r|d|e]; simpl in *; [exact IH|contradiction|exact IH].
Qed.

Lemma submit_request_post question cid :
  exists url, submit_request question cid = POST url (question_body question).
Proof.
  unfold submit_request. destruct cid as [c|]; [|eauto].
  destruct (truthy (VStr c)); eauto.
Qed.


Lemma text_only_spec a :
  text_only a = true ->
  attachment_ok a = true /\ has_text a = true /\ has_query a = false.
Proof.
  unfold text_only, attachment_ok, payload_ok, has_text, has_query.
  intros H. repeat (apply andb_true_iff in H; destruct H as [H ?]).
  apply negb_true_iff in H0.
  rewrite H, H2, H1, H0. rewrite orb_true_r. auto.
Qed.

Lemma query_only_spec b :
  query_only b = true ->
  attachment_ok b = true /\ has_query b = true /\ has_text b = false.
Proof.
  unfold query_only, attachment_ok, payload_ok, has_text, has_query.
  intros H. repeat (apply andb_true_iff in H; destruct H as [H ?]).
  apply negb_true_iff in H0.
  rewrite H, H2, H1, H0. rewrite orb_true_r. auto.
Qed.

Section Shapes.

Variable session : server.
Variable str : value -> string.

(** More fuel does not change a run that had enough. *)
Lemma poll_loop_more_fuel conv msg :
  forall fuel interval elapsed w o w',
    poll_loop session str fuel conv msg interval elapsed w = (o, w') ->
    o <> OutOfFuel ->
    forall fuel', fuel <= fuel' ->
      poll_loop session str fuel' conv msg interval elapsed w = (o, w').
Proof.
  induction fuel as [|fuel IH]; intros interval elapsed w o w' H Ho fuel' Hf;
    destruct (Float.ltb elapsed (Float.of_Z POLL_TIMEOUT)) eqn:Hb.
  - rewrite poll_loop_exhausted in H by exact Hb.
    inversion H; subst. contradiction.
  - rewrite poll_loop_timeout in H |- * by exact Hb. exact H.
  - destruct fuel' as [|fuel']; [lia|].
    rewrite poll_loop_step in H |- * by exact Hb. cbv zeta in *.
    destruct (observe _); try exact H.
    apply (IH _ _ _ _ _ H Ho). lia.
  - rewrite poll_loop_timeout in H |- * by exact Hb. exact H.
Qed.

Lemma ask_fuel_enough fuel question cid o w' :
  MAX_ATTEMPTS <= fuel ->
  ask session str fuel question cid initial = (o, w') -> o <> OutOfFuel.
Proof.
  intros Hf H. apply ask_inv in H.
  destruct (submitted cid _) as [e|conv msg].
  - destruct H as [-> _]. discriminate.
  - destruct H as (n & _ & [H|[H|[H|H]]]).
    + destruct H as (_ & -> & _). discriminate.
    + destruct H as (Hn & -> & _). simpl in Hn. lia.
    + destruct H as (_ & _ & e & _ & -> & _). discriminate.
    + destruct H as (_ & _ & data & Ho & H). intros ->.
      apply observe_terminal in Ho. destruct Ho as [Hd _].
      pose proof (parse_response_eq session str data conv msg
                    (after_polls (Message conv msg) 0 (S n)
                       (submitted_world question cid)) Hd) as E.
      destruct (py_or _ _);
        try (raised E H; discriminate).
      rewrite E in H. unfold bind in H.
      destruct (scan_attachments _ _ _ _ _ _ _) as [[g| |] w1] eqn:Hs;
        try discriminate.
      clear E H. revert Hs. generalize nothing_gathered.
      generalize (after_polls (Message conv msg) 0 (S n)
                    (submitted_world question cid)).
      induction l as [|a l IH]; intros w g H; [discriminate|].
      cbn [scan_attachments] in H. unfold bind at 1 in H.
      destruct (attachment_ok a) eqn:Ha.
      * rewrite scan_attachment_ok in H by exact Ha.
        destruct (has_result a && _); [cbv zeta in H|].
        -- destruct (query_result _) as [e|[c r]]; now apply IH in H.
        -- now apply IH in H.
      * rewrite scan_attachment_bad in H by exact Ha. discriminate.
Qed.

Lemma ask_more_fuel fuel question cid :
  MAX_ATTEMPTS <= fuel ->
  ask session str fuel question cid initial =
  ask session str MAX_ATTEMPTS question cid initial.
Proof.
  intros Hf.
  destruct (ask session str MAX_ATTEMPTS question cid initial) as [o w']
    eqn:H.
  pose proof (ask_fuel_enough _ _ _ _ _ (le_n _) H) as Ho.
  rewrite ask_submitted in H |- *.
  destruct (submitted cid _) as [e|conv msg]; [exact H|].
  now apply (poll_loop_more_fuel conv msg _ _ _ _ _ _ H Ho).
Qed.

(** The trace of a call: the submission, then a sleep before each status
    request, then what [_parse_response] adds for the terminal message. *)
Lemma ask_trace fuel question cid o w' :
  ask session str fuel question cid initial = (o, w') ->
  exists conv msg n evs,
    n <= MAX_ATTEMPTS
    /\ trace w' =
       Request (submit_request question cid)
         :: poll_events (Message conv msg) 0 n ++ evs
    /\ (evs = []
        \/ exists data,
             0 < n
             /\ observe (session n (GET (Message conv msg))) = Terminal data
             /\ Forall (table_request
                          (dict_get data "status" (VStr "UNKNOWN")) conv msg
                          (attachment_list data)) evs).
Proof.
  intros H. apply ask_inv in H.
  destruct (submitted cid _) as [e|conv msg].
  - destruct H as [_ ->]. exists VNone, VNone, 0, []. simpl. auto with arith.
  - destruct H as (n & _ & [H|[H|[H|H]]]).
    + destruct H as (Hn & _ & ->). exists conv, msg, n, [].
      rewrite app_nil_r. simpl in Hn. repeat split; auto. lia.
    + destruct H as (Hn & _ & _ & ->). exists conv, msg, n, [].
      rewrite app_nil_r. simpl in Hn. repeat split; auto. lia.
    + destruct H as (Hn & _ & e & _ & _ & ->). exists conv, msg, (S n), [].
      rewrite app_nil_r. simpl in Hn. repeat split; auto.
    + destruct H as (Hn & _ & data & Ho & H).
      pose proof (observe_terminal _ _ Ho) as [Hd _].
      apply parse_response_events in H; [|exact Hd].
      destruct H as (evs & -> & Hev).
      exists conv, msg, (S n), evs. simpl in Hn.
      repeat split; auto.
      right. exists data. repeat split; auto with arith.
Qed.

(** The sleeps of a call are an initial segment of the schedule. *)
Lemma ask_sleeps fuel question cid o w' :
  ask session str fuel question cid initial = (o, w') ->
  exists conv msg n evs,
    n <= MAX_ATTEMPTS
    /\ trace w' =
       Request (submit_request question cid)
         :: poll_events (Message conv msg) 0 n ++ evs
    /\ sleeps evs = []
    /\ sleeps (trace w') = map delay (seq 0 n).
Proof.
  intros H. apply ask_trace in H.
  destruct H as (conv & msg & n & evs & Hn & Htr & Hev).
  assert (Hs : sleeps evs = []).
  { destruct Hev as [-> | (data & _ & _ & Hev)]; [reflexivity|].
    now apply table_request_no_sleep in Hev. }
  exists conv, msg, n, evs. repeat split; trivial.
  rewrite Htr.
  change (Request (submit_request question cid)
            :: poll_events (Message conv msg) 0 n ++ evs)
    with ([Request (submit_request question cid)]
            ++ poll_events (Message conv msg) 0 n ++ evs).
  rewrite !sleeps_app, sleeps_poll_events, Hs, app_nil_r. reflexivity.
Qed.

(** The result of a call that returns: the timeout result, or what
    [_parse_response] makes of a terminal message. *)
Lemma ask_ret fuel question cid r w' :
  ask session str fuel question cid initial = (Ret r, w') ->
  exists conv msg,
    submitted cid (session 0 (submit_request question cid))
    = Accepted conv msg
    /\ (r = timeout_result conv msg
        \/ exists n data w,
             observe (session (S n) (GET (Message conv msg))) = Terminal data
             /\ _parse_response session str data conv msg w = (Ret r, w')).
Proof.
  intros H. apply ask_inv in H.
  destruct (submitted cid _) as [e|conv msg].
  - destruct H as [H _]. discriminate.
  - exists conv, msg. split; [reflexivity|].
    destruct H as (n & _ & [H|[H|[H|H]]]).
    + destruct H as (_ & [= ->] & _). now left.
    + destruct H as (_ & _ & H & _). discriminate.
    + destruct H as (_ & _ & e & _ & H & _). discriminate.
    + destruct H as (_ & _ & data & Ho & H). right. eauto.
Qed.

End Shapes.

(** * The claims *)

Section Claims.

Variable session : server.
Variable str : value -> string.

(** C9. Every result that [ask] returns has one of the four statuses
    COMPLETED, FAILED, CANCELLED and TIMEOUT: a message reaches
    [_parse_response] only with one of the three terminal statuses, and
    the only other result is the timeout result. *)
Theorem ask_status_is_final fuel question cid r w' :
  ask session str fuel question cid initial = (Ret r, w') ->
  In (status r)
    [VStr "COMPLETED"; VStr "FAILED"; VStr "CANCELLED"; VStr "TIMEOUT"].
Proof.
  intros H. apply ask_ret in H.
  destruct H as (conv & msg & _ & [ -> | (n & data & w & Ho & H) ]).
  - simpl. auto.
  - apply observe_terminal in Ho. destruct Ho as [Hd Ht].
    apply parse_response_ret in H; [|exact Hd].
    destruct H as (_ & -> & _).
    rewrite (terminal_status data Ht).
    destruct (is_terminal_cases _ Ht) as [ -> | [ -> | -> ] ]; simpl; auto.
Qed.

(** C10. In follow-up mode (a non-empty conversation identifier is passed
    in) every result that [ask] returns, whatever its status, carries
    exactly that identifier. *)
Theorem ask_keeps_conversation fuel question c r w' :
  c <> "" ->
  ask session str fuel question (Some c) initial = (Ret r, w') ->
  conversation_id r = VStr c.
Proof.
  intros Hc H. apply ask_ret in H.
  destruct H as (conv & msg & Hs & H).
  apply (submitted_follow_up c _ conv msg Hc) in Hs. subst conv.
  destruct H as [ -> | (n & data & w & Ho & H) ]; [reflexivity|].
  apply observe_terminal in Ho. destruct Ho as [Hd _].
  apply parse_response_ret in H; [|exact Hd].
  now destruct H as (_ & _ & _ & _ & _ & -> & _).
Qed.


(** C5, as amended. When the submission (start-conversation or
    continue-conversation request) fails in the transport, [ask] raises at
    once the very exception of the transport ([ConnectionError],
    [RequestTimeout] or the [HTTPError] of [raise_for_status]), not an
    error kind of its own: the submission is the only request sent, nothing
    is slept, nothing is retried, and no result is returned. *)
Theorem ask_submission_fails_fast fuel question cid e :
  submit_failure session question cid e ->
  ask session str fuel question cid initial =
  (Raise e,
   {| sent := 1; trace := [Request (submit_request question cid)] |}).
Proof.
  intros H. now rewrite (ask_rejected session str fuel question cid e H).
Qed.


(** C7, as amended. A transport failure of the submission and a transport
    failure of a status request both reach the caller as the very
    exception of the transport ([ConnectionError], [RequestTimeout] or
    [HTTPError]), unchanged and unwrapped; the first after the submission
    alone, the second after the status requests made so far. *)
Theorem transport_failures_propagate fuel question cid :
  (forall e,
     submit_failure session question cid e ->
     ask session str fuel question cid initial =
     (Raise e, submitted_world question cid))
  /\ (forall conv msg n e,
        poll_failure session question cid conv msg n e ->
        n < fuel ->
        ask session str fuel question cid initial =
        (Raise e,
         after_polls (Message conv msg) 0 (S n)
           (submitted_world question cid))).
Proof.
  split.
  - intros e H. now apply ask_rejected.
  - intros conv msg n e H Hf. now apply ask_poll_failure.
Qed.


(** C1, as amended. The text and the query of the result that [ask]
    returns for a terminal message are the content and the query of the
    last attachment, in the order of the message, whose text payload
    (respectively query payload) is not empty as an object, that is, passes
    the test [if att.get("text")]; the content itself may be the empty
    string, and is kept all the same.  In particular a message with two
    attachments, one with a text payload only and one with a query payload
    only, in either order, gives a result that holds both the text and the
    query. *)
Theorem ask_merges_attachments fuel question cid conv msg n data :
  run_answered session question cid conv msg n data ->
  n < fuel ->
  (forall r w',
     ask session str fuel question cid initial = (Ret r, w') ->
     text r = last_text (attachment_list data)
     /\ sql r = last_query (attachment_list data))
  /\ (forall a b,
        text_only a = true ->
        query_only b = true ->
        attachment_list data = [a; b] \/ attachment_list data = [b; a] ->
        exists r w',
          ask session str fuel question cid initial = (Ret r, w')
          /\ text r = text_of a
          /\ sql r = query_of b).
Proof.
  intros Hrun Hf.
  rewrite (ask_answered session str fuel question cid conv msg n data
             Hrun Hf).
  destruct Hrun as (_ & _ & Ho & _).
  apply observe_terminal in Ho. destruct Ho as [Hd _].
  set (w := after_polls _ _ _ _).
  assert (General : forall r w',
             _parse_response session str data conv msg w = (Ret r, w') ->
             text r = last_text (attachment_list data)
             /\ sql r = last_query (attachment_list data)).
  { intros r w' H. apply parse_response_ret in H; [|exact Hd].
    destruct H as (_ & _ & H2 & H3 & _). auto. }
  split; [exact General|].
  intros a b Ha Hb Hl.
  apply text_only_spec in Ha. destruct Ha as (Hoka & Hta & Hqa).
  apply query_only_spec in Hb. destruct Hb as (Hokb & Hqb & Htb).
  assert (Hwf : well_formed data = true).
  { unfold well_formed. rewrite Hd. unfold attachment_list in Hl.
    destruct (py_or _ _); try (destruct Hl; discriminate).
    destruct Hl as [-> | ->]; simpl; now rewrite Hoka, Hokb. }
  destruct (parse_response_total session str data conv msg w Hwf)
    as (r & w' & H).
  exists r, w'. split; [exact H|].
  apply General in H. destruct H as [-> ->].
  unfold last_text, last_query, last_with.
  destruct Hl as [-> | ->]; simpl;
    repeat match goal with
           | E : has_text _ = _ |- _ => rewrite E
           | E : has_query _ = _ |- _ => rewrite E
           end; auto.
Qed.

(** C2, as amended. In every call the sleeps are an initial segment of
    one schedule, each taken just before a status request: the schedule
    starts at 1, each delay is the previous one times 1.5 capped at 10,
    its first values are exactly 1, 1.5, 2.25, 3.375, 5.0625, 7.59375, 10,
    10, 10, it stays at 10 from the seventh delay on, and no delay
    exceeds 10. *)
Theorem poll_backoff_schedule fuel question cid o w' :
  ask session str fuel question cid initial = (o, w') ->
  (exists conv msg n evs,
     n <= MAX_ATTEMPTS
     /\ trace w' =
        Request (submit_request question cid)
          :: poll_events (Message conv msg) 0 n ++ evs
     /\ sleeps evs = []
     /\ sleeps (trace w') = map delay (seq 0 n))
  /\ delay 0 = POLL_INTERVAL_INITIAL
  /\ (forall k,
        delay (S k) =
        Float.min (Float.mul (delay k) backoff_factor) POLL_INTERVAL_MAX)
  /\ same_delays (map delay (seq 0 9)) computed_delays = true
  /\ (forall k, 6 <= k -> delay k = POLL_INTERVAL_MAX)
  /\ (forall k, Float.leb (delay k) POLL_INTERVAL_MAX = true).
Proof.
  intros H. split; [now apply ask_sleeps in H|].
  split; [reflexivity|]. split; [exact delay_S|].
  split; [vm_compute; reflexivity|].
  split; [exact delay_capped | exact delay_never_above_cap].
Qed.

(** C8. With fuel for [MAX_ATTEMPTS] iterations a call always ends, and
    more fuel changes nothing: the loop of [_poll] makes at most
    [MAX_ATTEMPTS] iterations, which is less than 300, because every
    iteration sleeps at least 1, the time slept is the sum of the sleeps,
    and the loop is left once the time slept is no longer below
    [POLL_TIMEOUT]; the time slept never exceeds the budget by more than
    one capped delay. *)
Theorem ask_terminates fuel question cid :
  MAX_ATTEMPTS <= fuel ->
  exists o w',
    ask session str fuel question cid initial = (o, w')
    /\ ask session str MAX_ATTEMPTS question cid initial = (o, w')
    /\ o <> OutOfFuel
    /\ (exists n,
          n <= MAX_ATTEMPTS
          /\ n <= Z.to_nat POLL_TIMEOUT
          /\ sleeps (trace w') = map delay (seq 0 n)
          /\ Float.leb (slept n)
               (Float.add (Float.of_Z POLL_TIMEOUT) POLL_INTERVAL_MAX)
             = true)
    /\ Forall (fun d => Float.leb POLL_INTERVAL_INITIAL d = true)
         (sleeps (trace w'))
    /\ (forall k, slept (S k) = Float.add (slept k) (delay k))
    /\ Float.ltb (slept MAX_ATTEMPTS) (Float.of_Z POLL_TIMEOUT) = false.
Proof.
  intros Hf.
  destruct (ask session str fuel question cid initial) as [o w'] eqn:H.
  exists o, w'. split; [reflexivity|].
  split; [now rewrite <- (ask_more_fuel session str fuel question cid Hf)|].
  split; [exact (ask_fuel_enough session str _ _ _ _ _ Hf H)|].
  apply ask_sleeps in H.
  destruct H as (conv & msg & n & evs & Hn & _ & _ & Hs).
  split; [|split; [|split]].
  - exists n. repeat split; trivial.
    + unfold MAX_ATTEMPTS, POLL_TIMEOUT in *. lia.
    + now apply slept_bounded.
  - rewrite Hs. now apply delays_at_least_one.
  - exact slept_S.
  - exact budget_spent.
Qed.

End Claims.

(** * Sample runs *)

Lemma always_pending_run :
  run_pending always_pending a_question None (VStr "c1") (VStr "m1").
Proof. split; [reflexivity | intros j Hj; reflexivity]. Defined.

Lemma completes_without_table_run :
  run_answered completes_without_table a_question None
    (VStr "c1") (VStr "m1") 2 completed_message.
Proof.
  repeat split.
  - intros [|[|j]] Hj; [reflexivity | reflexivity | lia].
  - unfold MAX_ATTEMPTS. lia.
Defined.

Lemma fails_with_error_run :
  run_answered fails_with_error a_question (Some "c7")
    (VStr "c7") (VStr "") 1 failed_message.
Proof.
  repeat split.
  - intros [|j] Hj; [reflexivity | lia].
  - unfold MAX_ATTEMPTS. lia.
Defined.

Lemma poll_down_run :
  poll_failure poll_down a_question None (VStr "c1") (VStr "m1") 0
    (HTTPError 503).
Proof.
  repeat split.
  - intros j Hj. lia.
  - unfold MAX_ATTEMPTS. lia.
Defined.

(** C2: the delays of a call that times out are not the listed ones; the
    sixth is 7.59375, not 7.59. *)
Lemma listed_delays_not_generated :
  same_delays
    (firstn 8 (sleeps (trace (snd (ask always_pending sample_str MAX_ATTEMPTS
                                     a_question None initial)))))
    (firstn 8 listed_delays) = false
  /\ denotes (delay 5) (759 # 100) = false
  /\ denotes (delay 5) (243 # 32) = true.
Proof. repeat split; vm_compute; reflexivity. Qed.

(** C7: a refused submission and a refused status request raise the same
    [HTTPError]. *)
Lemma errors_do_not_tell_phase : ~ phases_told_apart.
Proof.
  intros H.
  apply (H sample_str MAX_ATTEMPTS
           submit_down a_question None (HTTPError 503)
           (submitted_world a_question None)
           poll_down a_question None (HTTPError 503)
           (after_polls (Message (VStr "c1") (VStr "m1")) 0 1
              (submitted_world a_question None))).
  - exists (HTTPError 503). reflexivity.
  - vm_compute. reflexivity.
  - exists (VStr "c1"), (VStr "m1"), 0, (HTTPError 503).
    split; [exact poll_down_run | unfold MAX_ATTEMPTS; lia].
  - vm_compute. reflexivity.
  - reflexivity.
Qed.

Lemma ask_merges_attachments_witness :
  exists r w',
    ask completes_without_table sample_str MAX_ATTEMPTS a_question None initial
    = (Ret r, w')
    /\ text r = VStr "42 orders"
    /\ sql r = VStr "SELECT COUNT(*) FROM orders".
Proof.
  apply (proj2 (ask_merges_attachments completes_without_table sample_str
                  MAX_ATTEMPTS a_question None (VStr "c1") (VStr "m1") 2
                  completed_message completes_without_table_run
                  ltac:(unfold MAX_ATTEMPTS; lia))
           text_attachment query_attachment).
  - reflexivity.
  - reflexivity.
  - left. reflexivity.
Defined.

Lemma poll_backoff_schedule_witness :
  ask always_pending sample_str MAX_ATTEMPTS a_question None initial
  = (Ret (timeout_result (VStr "c1") (VStr "m1")), timed_out_world)
  /\ same_delays (map delay (seq 0 9)) computed_delays = true.
Proof.
  assert (H : ask always_pending sample_str MAX_ATTEMPTS a_question None initial
              = (Ret (timeout_result (VStr "c1") (VStr "m1")), timed_out_world))
    by (vm_compute; reflexivity).
  split; [exact H|].
  exact (proj1 (proj2 (proj2 (proj2
           (poll_backoff_schedule always_pending sample_str MAX_ATTEMPTS
              a_question None _ _ H))))).
Defined.



Lemma ask_submission_fails_fast_witness :
  submit_failure submit_down a_question (Some "c7") (HTTPError 503)
  /\ ask submit_down sample_str MAX_ATTEMPTS a_question (Some "c7") initial
     = (Raise (HTTPError 503),
        {| sent := 1;
           trace := [Request (POST (Messages (VStr "c7"))
                                (question_body a_question))] |}).
Proof.
  split; [reflexivity|].
  apply (ask_submission_fails_fast submit_down sample_str MAX_ATTEMPTS
           a_question (Some "c7") (HTTPError 503)).
  reflexivity.
Defined.


Lemma transport_failures_propagate_witness :
  poll_failure poll_down a_question None (VStr "c1") (VStr "m1") 0
    (HTTPError 503)
  /\ fst (ask poll_down sample_str MAX_ATTEMPTS a_question None initial)
     = Raise (HTTPError 503).
Proof.
  split; [exact poll_down_run|].
  rewrite (proj2 (transport_failures_propagate poll_down sample_str
                    MAX_ATTEMPTS a_question None)
             (VStr "c1") (VStr "m1") 0 (HTTPError 503) poll_down_run
             ltac:(unfold MAX_ATTEMPTS; lia)).
  reflexivity.
Defined.

Lemma ask_terminates_witness :
  MAX_ATTEMPTS <= 300
  /\ ask always_pending sample_str 300 a_question None initial
     = ask always_pending sample_str MAX_ATTEMPTS a_question None initial.
Proof.
  assert (Hf : MAX_ATTEMPTS <= 300) by (unfold MAX_ATTEMPTS; lia).
  split; [exact Hf|].
  destruct (ask_terminates always_pending sample_str 300 a_question None Hf)
    as (o & w' & H1 & H2 & _).
  rewrite H1, H2. reflexivity.
Defined.

Lemma ask_status_is_final_witness :
  ask completes_without_table sample_str MAX_ATTEMPTS a_question None initial
  = (Ret completed_result, completed_world)
  /\ In (status completed_result)
       [VStr "COMPLETED"; VStr "FAILED"; VStr "CANCELLED"; VStr "TIMEOUT"].
Proof.
  split; [vm_compute; reflexivity|].
  apply (ask_status_is_final completes_without_table sample_str MAX_ATTEMPTS
           a_question None completed_result completed_world).
  vm_compute. reflexivity.
Defined.

Lemma ask_keeps_conversation_witness :
  "c7" <> ""
  /\ ask fails_with_error sample_str MAX_ATTEMPTS a_question (Some "c7") initial
     = (Ret failed_result, failed_world)
  /\ conversation_id failed_result = VStr "c7".
Proof.
  split; [discriminate|]. split; [vm_compute; reflexivity|].
  apply (ask_keeps_conversation fails_with_error sample_str MAX_ATTEMPTS
           a_question "c7" failed_result failed_world).
  - discriminate.
  - vm_compute. reflexivity.
Defined.

(** A text payload that passes the test counts even when its content is the
    empty string: it replaces the text of an earlier attachment. *)
Example empty_content_is_kept :
  let first := VDict [("text", VDict [("content", VStr "42 orders")])] in
  let second := VDict [("text", VDict [("content", VStr "")])] in
  last_text [first; second] = VStr ""
  /\ fst (_parse_response always_pending sample_str
            (with_status "FAILED" [("attachments", VList [first; second])])
            (VStr "c1") (VStr "m1") initial)
     = Ret {| status := VStr "FAILED";
              text := VStr "";
              sql := VNone;
              columns := VList [];
              rows := VList [];
              error := None;
              conversation_id := VStr "c1";
              message_id := VStr "m1" |}.
Proof. split; reflexivity. Qed.

(** * Further properties of the client *)

Lemma find_last_cons {A} (p : A -> bool) (a : A) (l : list A) :
  find p (rev (a :: l)) =
  match find p (rev l) with
  | Some x => Some x
  | None => if p a then Some a else None
  end.
Proof.
  simpl rev. rewrite find_app. simpl.
  destruct (find p (rev l)); [reflexivity|]. now destruct (p a).
Qed.

Lemma last_table_cons t ts init :
  last_table (t :: ts) init =
  last_table ts (match t with inr table => table | inl _ => init end).
Proof.
  unfold last_table. rewrite find_last_cons.
  destruct (find fetched (rev ts)) as [[e|table]|] eqn:H.
  - apply find_some in H. destruct H as [_ H]. discriminate.
  - reflexivity.
  - destruct t as [e|table]; reflexivity.
Qed.

Lemma eq_str_true v s : eq_str v s = true -> v = VStr s.
Proof.
  destruct v; try discriminate. simpl. intros H.
  apply String.eqb_eq in H. now subst.
Qed.

Lemma requests_table_events session conv msg base ids :
  requests (table_events session conv msg base ids) =
  map (fun a => GET (QueryResult conv msg a)) ids.
Proof.
  revert base. induction ids as [|a ids IH]; intros base; [reflexivity|].
  cbn [table_events map]. cbv zeta.
  change (Request ?r :: ?l) with ([Request r] ++ l).
  rewrite !requests_app, IH.
  destruct (query_result _); reflexivity.
Qed.

Lemma warnings_app tr1 tr2 : warnings (tr1 ++ tr2) = warnings tr1 ++ warnings tr2.
Proof. unfold warnings. now rewrite flat_map_app. Qed.

Lemma warnings_table_events session conv msg base ids :
  warnings (table_events session conv msg base ids) =
  failures (tables session conv msg base ids).
Proof.
  revert base. induction ids as [|a ids IH]; intros base; [reflexivity|].
  cbn [table_events tables]. cbv zeta.
  change (Request ?r :: ?l) with ([Request r] ++ l).
  rewrite !warnings_app, IH. unfold failures. cbn [flat_map].
  destruct (query_result _); reflexivity.
Qed.

Lemma sleeps_table_events session conv msg base ids :
  sleeps (table_events session conv msg base ids) = [].
Proof.
  revert base. induction ids as [|a ids IH]; intros base; [reflexivity|].
  cbn [table_events]. cbv zeta.
  change (Request ?r :: ?l) with ([Request r] ++ l).
  rewrite !sleeps_app, IH. destruct (query_result _); reflexivity.
Qed.

Lemma warnings_poll_events url k n : warnings (poll_events url k n) = [].
Proof.
  revert k. induction n as [|n IH]; intros k; [reflexivity|].
  unfold poll_events in *. simpl. apply IH.
Qed.

Section Tables.

Variable session : server.
Variable str : value -> string.

(** The whole scan of well-formed attachments under [COMPLETED]: what is
    gathered, and the world it leaves. *)
Lemma scan_attachments_completed st conv msg l :
  eq_str st "COMPLETED" = true ->
  forall g w,
    forallb attachment_ok l = true ->
    exists g',
      scan_attachments session st conv msg l g w =
      (Ret g',
       {| sent := sent w + List.length (result_ids l);
          trace := trace w
                   ++ table_events session conv msg (sent w) (result_ids l) |})
      /\ (got_columns g', got_rows g') =
         last_table (tables session conv msg (sent w) (result_ids l))
           (got_columns g, got_rows g).
Proof.
  intros Hst. induction l as [|a l IH]; intros g w Hok.
  - exists g. destruct w. simpl. rewrite Nat.add_0_r, app_nil_r. auto.
  - cbn [forallb] in Hok. apply andb_true_iff in Hok.
    destruct Hok as [Ha Hl].
    cbn [scan_attachments]. unfold bind at 1.
    rewrite scan_attachment_ok by exact Ha.
    rewrite Hst, andb_true_r, result_ids_cons.
    destruct (has_result a); [cbv zeta|].
    + cbn [tables table_events List.length]. cbv zeta.
      rewrite last_table_cons.
      destruct (query_result _) as [e|[c r]] eqn:Hq.
      * destruct (IH (gather g a (got_columns g) (got_rows g))
                    (record_event (Warning e)
                       (record_event
                          (Request (GET (QueryResult conv msg
                             (dict_get a "attachment_id" VNone)))) w)) Hl)
          as (g' & Hs & Ht).
        exists g'. rewrite Hs. cbn [sent trace record_event gather
          got_columns got_rows] in *.
        split; [|exact Ht].
        f_equal. f_equal; [lia|]. rewrite <- !app_assoc. reflexivity.
      * destruct (IH (gather g a c r)
                    (record_event
                       (Request (GET (QueryResult conv msg
                          (dict_get a "attachment_id" VNone)))) w) Hl)
          as (g' & Hs & Ht).
        exists g'. rewrite Hs. cbn [sent trace record_event gather
          got_columns got_rows] in *.
        split; [|exact Ht].
        f_equal. f_equal; [lia|]. rewrite <- !app_assoc. reflexivity.
    + destruct (IH (gather g a (got_columns g) (got_rows g)) w Hl)
        as (g' & Hs & Ht).
      exists g'. split; [exact Hs | exact Ht].
Qed.

(** The same for a whole completed message. *)
Lemma parse_response_completed data conv msg w :
  well_formed data = true ->
  dict_get data "status" (VStr "") = VStr "COMPLETED" ->
  let ids := result_ids (attachment_list data) in
  exists r,
    _parse_response session str data conv msg w =
    (Ret r,
     {| sent := sent w + List.length ids;
        trace := trace w ++ table_events session conv msg (sent w) ids |})
    /\ (columns r, rows r) =
       last_table (tables session conv msg (sent w) ids) (VList [], VList []).
Proof.
  intros Hwf Hst. cbv zeta.
  unfold well_formed in Hwf. apply andb_true_iff in Hwf.
  destruct Hwf as [Hd Hl].
  assert (Ht : is_terminal (dict_get data "status" (VStr "")) = true)
    by now rewrite Hst.
  pose proof (terminal_status data Ht) as Hu. rewrite Hst in Hu.
  pose proof (parse_response_eq session str data conv msg w Hd) as E.
  unfold attachment_list.
  destruct (py_or (dict_get data "attachments" VNone) (VList []));
    try discriminate.
  rewrite E, Hu. unfold bind.
  destruct (scan_attachments_completed (VStr "COMPLETED") conv msg l
              eq_refl nothing_gathered w Hl) as (g & Hs & Htab).
  rewrite Hs. exists (result_of str data conv msg g).
  split; [reflexivity | exact Htab].
Qed.

(** A scan that meets a malformed attachment raises [AttributeError]. *)
Lemma scan_attachments_malformed st conv msg l :
  forall g w,
    forallb attachment_ok l = false ->
    exists w', scan_attachments session st conv msg l g w
               = (Raise AttributeError, w').
Proof.
  induction l as [|a l IH]; intros g w H; [discriminate|].
  cbn [forallb] in H. cbn [scan_attachments]. unfold bind at 1.
  destruct (attachment_ok a) eqn:Ha.
  - rewrite scan_attachment_ok by exact Ha. cbn [andb] in H.
    destruct (has_result a && eq_str st "COMPLETED"); [cbv zeta|].
    + destruct (query_result _) as [e|[c r]]; now apply IH.
    + now apply IH.
  - rewrite scan_attachment_bad by exact Ha. eauto.
Qed.

Lemma parse_response_malformed data conv msg w :
  is_dict data = true ->
  well_formed data = false ->
  exists e w',
    _parse_response session str data conv msg w = (Raise e, w')
    /\ (e = AttributeError \/ e = TypeError).
Proof.
  intros Hd Hwf. unfold well_formed in Hwf. rewrite Hd in Hwf.
  cbn [andb] in Hwf.
  pose proof (parse_response_dict session str data conv msg w Hd) as E.
  rewrite E. clear E.
  destruct (py_or_cases (dict_get data "attachments" VNone) (VList []))
    as [H|[H Ht]]; rewrite H in Hwf |- *; [discriminate|].
  destruct (dict_get data "attachments" VNone) as [|b|z|f|s0|l|kv];
    try (now exists TypeError, w; auto).
  - destruct s0 as [|c s0]; [discriminate|].
    exists AttributeError, w. auto.
  - unfold bind at 1. cbn [py_iter ret]. unfold bind at 1.
    destruct (scan_attachments_malformed
                (dict_get data "status" (VStr "UNKNOWN")) conv msg l
                nothing_gathered w Hwf) as (w' & Hs).
    rewrite Hs. exists AttributeError, w'. auto.
  - destruct kv as [|[k v] kv]; [discriminate|].
    exists AttributeError, w. auto.
Qed.

End Tables.

Lemma table_request_requests st conv msg l evs :
  Forall (table_request st conv msg l) evs ->
  exists ids, requests evs = map (fun a => GET (QueryResult conv msg a)) ids.
Proof.
  induction 1 as [|e evs He _ [ids IH]]; [now exists []|].
  destruct e as [[url body|[| | |c m a]]|d|x]; simpl in He; try contradiction.
  - destruct He as (-> & -> & _). exists (a :: ids). simpl.
    now rewrite <- IH.
  - exists ids. exact IH.
Qed.

Lemma submitted_accepted cid r conv msg :
  submitted cid r = Accepted conv msg ->
  exists status_code body,
    r = Response status_code (Some body)
    /\ http_error status_code = false
    /\ is_dict body = true
    /\ (follow_up_mode cid = true ->
        msg = dict_get body "id" (VStr ""))
    /\ (follow_up_mode cid = false ->
        conv = dict_get body "conversation_id" (VStr "")
        /\ msg = py_or (dict_get body "message_id" VNone)
                   (dict_get body "id" (VStr ""))).
Proof.
  unfold submitted, follow_up_mode.
  destruct r as [f|code body]; [discriminate|].
  destruct (http_error code) eqn:Hc; [discriminate|].
  destruct body as [d|]; [|discriminate].
  destruct (is_dict d) eqn:Hd; [|discriminate].
  intros H. exists code, d.
  split; [reflexivity|]. split; [exact Hc|]. split; [exact Hd|].
  split; intros Hm.
  - destruct cid as [c|]; [|discriminate].
    rewrite Hm in H. now inversion H.
  - destruct cid as [c|]; [rewrite Hm in H|]; now inversion H.
Qed.

Section Further.

Variable session : server.
Variable str : value -> string.

(** A status request that cannot be read ends the call with its exception. *)
Lemma ask_fails_at fuel question cid conv msg n e :
  submitted cid (session 0 (submit_request question cid)) = Accepted conv msg ->
  pending_until session (Message conv msg) 1 n ->
  observe (session (S n) (GET (Message conv msg))) = Failure e ->
  n < MAX_ATTEMPTS ->
  n < fuel ->
  ask session str fuel question cid initial =
  (Raise e,
   after_polls (Message conv msg) 0 (S n) (submitted_world question cid)).
Proof.
  intros Hs Hp He Hn Hf.
  replace fuel with (n + S (fuel - S n)) by lia.
  rewrite (ask_through _ _ _ question cid conv msg n) by (trivial; lia).
  rewrite poll_loop_step by now apply budget_left.
  cbv zeta. cbn [after_polls sent submitted_world record_event initial].
  change (1 + n) with (S n). rewrite He.
  f_equal. apply (after_polls_snoc (Message conv msg) 0 n).
Qed.

Lemma ask_ret_ids fuel question cid r w' :
  ask session str fuel question cid initial = (Ret r, w') ->
  submitted cid (session 0 (submit_request question cid))
  = Accepted (conversation_id r) (message_id r).
Proof.
  intros H. apply ask_ret in H.
  destruct H as (conv & msg & Hs & [ -> | (n & data & w & Ho & H) ]).
  - exact Hs.
  - apply observe_terminal in Ho. destruct Ho as [Hd _].
    apply parse_response_ret in H; [|exact Hd].
    destruct H as (_ & _ & _ & _ & _ & -> & ->). exact Hs.
Qed.

Lemma requests_after_polls url n question cid :
  requests (trace (after_polls url 0 n (submitted_world question cid))) =
  submit_request question cid :: repeat (GET url) n.
Proof.
  cbn [after_polls trace submitted_world record_event initial].
  rewrite requests_app, requests_poll_events. reflexivity.
Qed.

(** X1. The question is posted once, as the first request of the call and
    as the content of its body; every other request is a GET: at most
    [MAX_ATTEMPTS] status requests for one message, then the query-result
    requests of that message. *)
Theorem ask_posts_once fuel question cid o w' :
  ask session str fuel question cid initial = (o, w') ->
  exists url conv msg n ids,
    submit_request question cid = POST url (question_body question)
    /\ n <= MAX_ATTEMPTS
    /\ requests (trace w') =
       POST url (question_body question)
         :: repeat (GET (Message conv msg)) n
         ++ map (fun a => GET (QueryResult conv msg a)) ids.
Proof.
  intros H. apply ask_trace in H.
  destruct H as (conv & msg & n & evs & Hn & Htr & Hev).
  destruct (submit_request_post question cid) as [url Hu].
  assert (Hids : exists ids,
             requests evs = map (fun a => GET (QueryResult conv msg a)) ids).
  { destruct Hev as [ -> | (data & _ & _ & Hev) ]; [now exists []|].
    now apply table_request_requests in Hev. }
  destruct Hids as [ids Hids].
  exists url, conv, msg, n, ids. repeat split; trivial.
  rewrite Htr, Hu.
  change (Request ?r :: ?l) with ([Request r] ++ l).
  rewrite !requests_app, requests_poll_events, Hids. reflexivity.
Qed.

(** X2. The identifiers of a returned result come from the reply to the
    submission: in start mode the conversation is its [conversation_id]
    (the empty string when missing) and the message is its [message_id],
    or its [id] when that is missing or falsy (the empty string when both
    are); in follow-up mode the message is its [id] alone, whatever
    [message_id] says. *)
Theorem ask_ids_from_submission fuel question cid r w' :
  ask session str fuel question cid initial = (Ret r, w') ->
  exists status_code body,
    session 0 (submit_request question cid)
    = Response status_code (Some body)
    /\ (follow_up_mode cid = false ->
        conversation_id r = dict_get body "conversation_id" (VStr "")
        /\ message_id r = py_or (dict_get body "message_id" VNone)
                            (dict_get body "id" (VStr "")))
    /\ (follow_up_mode cid = true ->
        message_id r = dict_get body "id" (VStr "")).
Proof.
  intros H. apply ask_ret_ids in H. apply submitted_accepted in H.
  destruct H as (code & body & Hr & _ & _ & Hf & Hs).
  exists code, body. auto.
Qed.

(** X3. A reply with a success status that is not JSON raises
    [JSONDecodeError], and one that is JSON but not an object raises
    [AttributeError]: at the submission after that single request, at a
    status request after the requests made so far. *)
Theorem unreadable_reply_raises fuel question cid :
  (forall status_code body,
     session 0 (submit_request question cid) = Response status_code body ->
     http_error status_code = false ->
     match body with Some data => is_dict data | None => false end = false ->
     ask session str fuel question cid initial =
     (Raise (match body with
             | Some _ => AttributeError
             | None => JSONDecodeError
             end),
      submitted_world question cid))
  /\ (forall conv msg n status_code body,
        submitted cid (session 0 (submit_request question cid))
        = Accepted conv msg ->
        pending_until session (Message conv msg) 1 n ->
        n < MAX_ATTEMPTS ->
        n < fuel ->
        session (S n) (GET (Message conv msg)) = Response status_code body ->
        http_error status_code = false ->
        match body with Some data => is_dict data | None => false end = false ->
        ask session str fuel question cid initial =
        (Raise (match body with
                | Some _ => AttributeError
                | None => JSONDecodeError
                end),
         after_polls (Message conv msg) 0 (S n)
           (submitted_world question cid))).
Proof.
  split.
  - intros code body Hr Hc Hb. rewrite ask_submitted.
    unfold submitted. rewrite Hr, Hc.
    destruct body as [d|]; [rewrite Hb|]; reflexivity.
  - intros conv msg n code body Hs Hp Hn Hf Hr Hc Hb.
    apply ask_fails_at; trivial.
    unfold observe. rewrite Hr, Hc.
    destruct body as [d|]; [rewrite Hb|]; reflexivity.
Qed.

(** X4. For a well-formed COMPLETED message the columns and the rows of the
    result are those of the last query-result request that succeeded, in
    the order of the attachments (a key missing from its reply gives an
    empty list), and empty lists when none succeeded. *)
Theorem ask_table_of_last_success fuel question cid conv msg n data :
  run_answered session question cid conv msg n data ->
  n < fuel ->
  well_formed data = true ->
  dict_get data "status" (VStr "") = VStr "COMPLETED" ->
  exists r w',
    ask session str fuel question cid initial = (Ret r, w')
    /\ (columns r, rows r) =
       last_table
         (tables session conv msg (S (S n))
            (result_ids (attachment_list data)))
         (VList [], VList []).
Proof.
  intros Hrun Hf Hwf Hst.
  rewrite (ask_answered session str fuel question cid conv msg n data Hrun Hf).
  destruct (parse_response_completed session str data conv msg
              (after_polls (Message conv msg) 0 (S n)
                 (submitted_world question cid)) Hwf Hst) as (r & H & Ht).
  exists r. eexists. split; [exact H | exact Ht].
Qed.

(** X5. For a well-formed COMPLETED message found at status request [n],
    the call sends one query-result request for each attachment with a
    truthy [attachment_id], in order, whether or not the attachment has a
    query, and logs one warning for each of them that fails; it sleeps
    only before the status requests. *)
Theorem ask_fetches_each_table fuel question cid conv msg n data :
  run_answered session question cid conv msg n data ->
  n < fuel ->
  well_formed data = true ->
  dict_get data "status" (VStr "") = VStr "COMPLETED" ->
  exists r w',
    ask session str fuel question cid initial = (Ret r, w')
    /\ requests (trace w') =
       submit_request question cid
         :: repeat (GET (Message conv msg)) (S n)
         ++ map (fun a => GET (QueryResult conv msg a))
              (result_ids (attachment_list data))
    /\ warnings (trace w') =
       failures (tables session conv msg (S (S n))
                   (result_ids (attachment_list data)))
    /\ sleeps (trace w') = map delay (seq 0 (S n)).
Proof.
  intros Hrun Hf Hwf Hst.
  rewrite (ask_answered session str fuel question cid conv msg n data Hrun Hf).
  destruct (parse_response_completed session str data conv msg
              (after_polls (Message conv msg) 0 (S n)
                 (submitted_world question cid)) Hwf Hst) as (r & H & _).
  exists r. eexists. split; [exact H|].
  cbn [trace]. rewrite requests_app, warnings_app, sleeps_app.
  rewrite requests_after_polls, requests_table_events.
  rewrite warnings_table_events, sleeps_table_events.
  cbn [after_polls trace sent submitted_world record_event initial].
  rewrite warnings_app, warnings_poll_events, sleeps_app, sleeps_poll_events.
  rewrite !app_nil_r. repeat split; reflexivity.
Qed.

(** X6. A terminal message that does not have the documented shape (its
    attachments are not a list, an attachment is not an object, or a
    truthy text or query payload is not an object) makes the call raise
    [AttributeError] or [TypeError]; a message that has it always gives a
    result. *)
Theorem ask_raises_on_malformed_message fuel question cid conv msg n data :
  run_answered session question cid conv msg n data ->
  n < fuel ->
  (well_formed data = true ->
   exists r w', ask session str fuel question cid initial = (Ret r, w'))
  /\ (well_formed data = false ->
      exists e w',
        ask session str fuel question cid initial = (Raise e, w')
        /\ (e = AttributeError \/ e = TypeError)).
Proof.
  intros Hrun Hf.
  rewrite (ask_answered session str fuel question cid conv msg n data Hrun Hf).
  destruct Hrun as (_ & _ & Ho & _).
  apply observe_terminal in Ho. destruct Ho as [Hd _].
  split; intros Hwf.
  - now apply parse_response_total.
  - now apply parse_response_malformed.
Qed.

(** X7. A result with status TIMEOUT is the synthesized one, returned after
    exactly [MAX_ATTEMPTS] = 34 status requests and 300.78125 units of
    sleep; no query-result request is sent and nothing is logged. *)
Theorem ask_timeout_is_exact fuel question cid r w' :
  ask session str fuel question cid initial = (Ret r, w') ->
  status r = VStr "TIMEOUT" ->
  r = timeout_result (conversation_id r) (message_id r)
  /\ requests (trace w') =
     submit_request question cid
       :: repeat (GET (Message (conversation_id r) (message_id r)))
            MAX_ATTEMPTS
  /\ sleeps (trace w') = map delay (seq 0 MAX_ATTEMPTS)
  /\ warnings (trace w') = []
  /\ Float.to_Q (slept MAX_ATTEMPTS) = Some (9625 # 32)%Q.
Proof.
  intros H Hst. pose proof (ask_inv session str _ _ _ _ _ H) as Hinv.
  destruct (submitted cid _) as [e|conv msg]; [now destruct Hinv|].
  destruct Hinv as (n & _ & [Hc|[Hc|[Hc|Hc]]]).
  - destruct Hc as (Hn & [= ->] & ->). simpl in Hn. subst n.
    split; [reflexivity|]. cbn [conversation_id message_id timeout_result].
    split; [apply requests_after_polls|].
    cbn [after_polls trace submitted_world record_event initial].
    rewrite !sleeps_app, sleeps_poll_events.
    rewrite !warnings_app, warnings_poll_events.
    repeat split; vm_compute; reflexivity.
  - destruct Hc as (_ & _ & Hc & _). discriminate.
  - destruct Hc as (_ & _ & e & _ & Hc & _). discriminate.
  - exfalso. destruct Hc as (_ & _ & data & Ho & Hp).
    apply observe_terminal in Ho. destruct Ho as [Hd Ht].
    apply parse_response_ret in Hp; [|exact Hd].
    destruct Hp as (_ & Hs & _).
    rewrite Hst, (terminal_status data Ht) in Hs.
    rewrite <- Hs in Ht. discriminate.
Qed.

(** X8. Whatever its status, the result for a terminal message carries the
    status of the message and, when the message has a truthy [error], the
    string of that error (also under COMPLETED); otherwise no error. *)
Theorem ask_copies_status_and_error fuel question cid conv msg n data r w' :
  run_answered session question cid conv msg n data ->
  n < fuel ->
  ask session str fuel question cid initial = (Ret r, w') ->
  status r = dict_get data "status" (VStr "")
  /\ error r = (if truthy (dict_get data "error" VNone)
                then Some (str (dict_get data "error" VNone))
                else None)
  /\ conversation_id r = conv
  /\ message_id r = msg.
Proof.
  intros Hrun Hf.
  rewrite (ask_answered session str fuel question cid conv msg n data Hrun Hf).
  destruct Hrun as (_ & _ & Ho & _).
  apply observe_terminal in Ho. destruct Ho as [Hd Ht].
  intros H. apply parse_response_ret in H; [|exact Hd].
  destruct H as (_ & H1 & _ & _ & H4 & H5 & H6).
  rewrite <- (terminal_status data Ht). auto.
Qed.

End Further.

Section Latency.

Variable session : server.
Variable str : value -> string.

(** X9. A message that is terminal at its status request number [n]
    (counting from 0) is handed back after exactly [n + 1] sleeps, the first
    delays of the schedule, and [n + 1] status requests, whatever the
    outcome of normalising it. *)
Theorem ask_answer_latency fuel question cid conv msg n data o w' :
  run_answered session question cid conv msg n data ->
  n < fuel ->
  ask session str fuel question cid initial = (o, w') ->
  sleeps (trace w') = map delay (seq 0 (S n))
  /\ exists ids,
       requests (trace w') =
       submit_request question cid
         :: repeat (GET (Message conv msg)) (S n)
         ++ map (fun a => GET (QueryResult conv msg a)) ids.
Proof.
  intros Hrun Hf.
  rewrite (ask_answered session str fuel question cid conv msg n data Hrun Hf).
  destruct Hrun as (_ & _ & Ho & _).
  apply observe_terminal in Ho. destruct Ho as [Hd _].
  intros H. apply parse_response_events in H; [|exact Hd].
  destruct H as (evs & -> & Hev).
  rewrite sleeps_app, requests_app, requests_after_polls.
  rewrite (table_request_no_sleep _ _ _ _ _ Hev), app_nil_r.
  apply table_request_requests in Hev. destruct Hev as [ids ->].
  split; [|now exists ids].
  cbn [after_polls trace submitted_world record_event initial].
  rewrite sleeps_app, sleeps_poll_events. reflexivity.
Qed.

End Latency.

(** ** Sample runs of the further properties *)

Lemma completes_with_table_run :
  run_answered completes_with_table a_question None
    (VStr "c1") (VStr "m1") 0 tabled_message.
Proof.
  repeat split.
  - intros j Hj. lia.
  - unfold MAX_ATTEMPTS. lia.
Defined.

Lemma follows_up_run :
  run_answered follows_up a_question (Some "c7")
    (VStr "c7") (VStr "m2") 0 cancelled_message.
Proof.
  repeat split.
  - intros j Hj. lia.
  - unfold MAX_ATTEMPTS. lia.
Defined.

Lemma completes_malformed_run :
  run_answered completes_malformed a_question None
    (VStr "c1") (VStr "m1") 0 malformed_message.
Proof.
  repeat split.
  - intros j Hj. lia.
  - unfold MAX_ATTEMPTS. lia.
Defined.

Lemma enough_fuel : 0 < MAX_ATTEMPTS.
Proof. unfold MAX_ATTEMPTS. lia. Defined.

Lemma ask_posts_once_witness :
  ask completes_with_table sample_str MAX_ATTEMPTS a_question None initial
  = (Ret tabled_result, tabled_world)
  /\ exists url conv msg n ids,
       submit_request a_question None = POST url (question_body a_question)
       /\ n <= MAX_ATTEMPTS
       /\ requests (trace tabled_world) =
          POST url (question_body a_question)
            :: repeat (GET (Message conv msg)) n
            ++ map (fun a => GET (QueryResult conv msg a)) ids.
Proof.
  assert (H : ask completes_with_table sample_str MAX_ATTEMPTS a_question None
                initial = (Ret tabled_result, tabled_world))
    by (vm_compute; reflexivity).
  split; [exact H|].
  exact (ask_posts_once completes_with_table sample_str MAX_ATTEMPTS
           a_question None _ _ H).
Defined.

Lemma ask_ids_from_submission_witness :
  ask follows_up sample_str MAX_ATTEMPTS a_question (Some "c7") initial
  = (Ret cancelled_result, cancelled_world)
  /\ message_id cancelled_result = dict_get follow_up_reply "id" (VStr "").
Proof.
  assert (H : ask follows_up sample_str MAX_ATTEMPTS a_question (Some "c7")
                initial = (Ret cancelled_result, cancelled_world))
    by (vm_compute; reflexivity).
  split; [exact H|].
  destruct (ask_ids_from_submission follows_up sample_str MAX_ATTEMPTS
              a_question (Some "c7") _ _ H)
    as (code & body & Hr & _ & Hm).
  injection Hr as _ <-. apply Hm. reflexivity.
Defined.

Lemma unreadable_reply_raises_witness :
  submits_a_list 0 (submit_request a_question None)
  = Response 200 (Some (VList []))
  /\ ask submits_a_list sample_str MAX_ATTEMPTS a_question None initial
     = (Raise AttributeError, submitted_world a_question None).
Proof.
  split; [reflexivity|].
  exact (proj1 (unreadable_reply_raises submits_a_list sample_str
                  MAX_ATTEMPTS a_question None)
           200%Z (Some (VList [])) eq_refl eq_refl eq_refl).
Defined.

Lemma ask_table_of_last_success_witness :
  run_answered completes_with_table a_question None
    (VStr "c1") (VStr "m1") 0 tabled_message
  /\ exists r w',
       ask completes_with_table sample_str MAX_ATTEMPTS a_question None initial
       = (Ret r, w')
       /\ (columns r, rows r) =
          (VList [VDict [("name", VStr "orders")]], VList [VList [VInt 42]]).
Proof.
  split; [exact completes_with_table_run|].
  exact (ask_table_of_last_success completes_with_table sample_str
           MAX_ATTEMPTS a_question None (VStr "c1") (VStr "m1") 0
           tabled_message completes_with_table_run enough_fuel
           eq_refl eq_refl).
Defined.

Lemma ask_fetches_each_table_witness :
  run_answered completes_with_table a_question None
    (VStr "c1") (VStr "m1") 0 tabled_message
  /\ exists r w',
       ask completes_with_table sample_str MAX_ATTEMPTS a_question None initial
       = (Ret r, w')
       /\ requests (trace w') =
          [POST StartConversation (question_body a_question);
           GET (Message (VStr "c1") (VStr "m1"));
           GET (QueryResult (VStr "c1") (VStr "m1") (VStr "a1"));
           GET (QueryResult (VStr "c1") (VStr "m1") (VStr "a2"))]
       /\ warnings (trace w') = [HTTPError 404]
       /\ sleeps (trace w') = [POLL_INTERVAL_INITIAL].
Proof.
  split; [exact completes_with_table_run|].
  exact (ask_fetches_each_table completes_with_table sample_str
           MAX_ATTEMPTS a_question None (VStr "c1") (VStr "m1") 0
           tabled_message completes_with_table_run enough_fuel
           eq_refl eq_refl).
Defined.

Lemma ask_raises_on_malformed_message_witness :
  run_answered completes_malformed a_question None
    (VStr "c1") (VStr "m1") 0 malformed_message
  /\ well_formed malformed_message = false
  /\ exists e w',
       ask completes_malformed sample_str MAX_ATTEMPTS a_question None initial
       = (Raise e, w')
       /\ (e = AttributeError \/ e = TypeError).
Proof.
  split; [exact completes_malformed_run|]. split; [reflexivity|].
  exact (proj2 (ask_raises_on_malformed_message completes_malformed
                  sample_str MAX_ATTEMPTS a_question None (VStr "c1")
                  (VStr "m1") 0 malformed_message completes_malformed_run
                  enough_fuel) eq_refl).
Defined.

Lemma ask_timeout_is_exact_witness :
  ask always_pending sample_str MAX_ATTEMPTS a_question None initial
  = (Ret (timeout_result (VStr "c1") (VStr "m1")), timed_out_world)
  /\ sleeps (trace timed_out_world) = map delay (seq 0 MAX_ATTEMPTS).
Proof.
  assert (H : ask always_pending sample_str MAX_ATTEMPTS a_question None initial
              = (Ret (timeout_result (VStr "c1") (VStr "m1")), timed_out_world))
    by (vm_compute; reflexivity).
  split; [exact H|].
  exact (proj1 (proj2 (proj2
           (ask_timeout_is_exact always_pending sample_str MAX_ATTEMPTS
              a_question None _ _ H eq_refl)))).
Defined.

Lemma ask_copies_status_and_error_witness :
  run_answered follows_up a_question (Some "c7")
    (VStr "c7") (VStr "m2") 0 cancelled_message
  /\ ask follows_up sample_str MAX_ATTEMPTS a_question (Some "c7") initial
     = (Ret cancelled_result, cancelled_world)
  /\ error cancelled_result = Some "stopped".
Proof.
  assert (H : ask follows_up sample_str MAX_ATTEMPTS a_question (Some "c7")
                initial = (Ret cancelled_result, cancelled_world))
    by (vm_compute; reflexivity).
  split; [exact follows_up_run|]. split; [exact H|].
  exact (proj1 (proj2
           (ask_copies_status_and_error follows_up sample_str MAX_ATTEMPTS
              a_question (Some "c7") (VStr "c7") (VStr "m2") 0
              cancelled_message _ _ follows_up_run enough_fuel H))).
Defined.

Lemma ask_answer_latency_witness :
  run_answered completes_with_table a_question None
    (VStr "c1") (VStr "m1") 0 tabled_message
  /\ ask completes_with_table sample_str MAX_ATTEMPTS a_question None initial
     = (Ret tabled_result, tabled_world)
  /\ sleeps (trace tabled_world) = [POLL_INTERVAL_INITIAL].
Proof.
  assert (H : ask completes_with_table sample_str MAX_ATTEMPTS a_question None
                initial = (Ret tabled_result, tabled_world))
    by (vm_compute; reflexivity).
  split; [exact completes_with_table_run|]. split; [exact H|].
  exact (proj1 (ask_answer_latency completes_with_table sample_str
                  MAX_ATTEMPTS a_question None (VStr "c1") (VStr "m1") 0
                  tabled_message _ _ completes_with_table_run enough_fuel H)).
Defined.

(** * Properties of the bot *)

(** ** Rendering *)

Lemma concat_nonempty sep a l :
  a <> EmptyString -> String.concat sep (a :: l) <> EmptyString.
Proof.
  intros Ha. destruct a as [|c a]; [contradiction|].
  destruct l; simpl; discriminate.
Qed.

Lemma strings_of_app l1 l2 :
  strings_of (l1 ++ l2) =
  match strings_of l1 with
  | inr s1 =>
      match strings_of l2 with
      | inr s2 => inr (s1 ++ s2)
      | inl e => inl e
      end
  | inl e => inl e
  end.
Proof.
  induction l1 as [|v l1 IH]; simpl.
  - now destruct (strings_of l2).
  - destruct v; try reflexivity. rewrite IH.
    destruct (strings_of l1); [reflexivity|].
    now destruct (strings_of l2).
Qed.

Lemma strings_of_nonempty items l :
  Forall (fun v => v <> VStr "") items ->
  strings_of items = inr l ->
  Forall (fun s => s <> EmptyString) l /\ List.length l = List.length items.
Proof.
  intros H. revert l. induction H as [|v items Hv _ IH]; intros l Hl.
  - inversion Hl. auto.
  - simpl in Hl. destruct v; try discriminate.
    destruct (strings_of items) as [e|l']; [discriminate|].
    inversion Hl; subst. destruct (IH l' eq_refl) as [Hf Hlen].
    split; [|simpl; now rewrite Hlen].
    constructor; [|exact Hf]. intros E. subst. now apply Hv.
Qed.

Lemma join_nonempty sep items s :
  items <> [] ->
  Forall (fun v => v <> VStr "") items ->
  join sep items = inr s -> s <> EmptyString.
Proof.
  intros Hne Hf. unfold join.
  destruct (strings_of items) as [e|l] eqn:Hl; [discriminate|].
  intros [= <-]. destruct (strings_of_nonempty items l Hf Hl) as [Hl' Hlen].
  destruct l as [|a l].
  - destruct items; [contradiction|discriminate].
  - apply concat_nonempty. now inversion Hl'.
Qed.

Lemma truthy_not_empty v : truthy v = true -> v <> VStr "".
Proof. intros H E. subst. discriminate. Qed.

Lemma append_empty (s : string) : (s ++ "")%string = s.
Proof. induction s as [|c s IH]; simpl; [reflexivity | now rewrite IH]. Qed.


Lemma names_from_total i cs :
  forallb column_ok cs = true ->
  exists names,
    names_from i cs = inr names
    /\ forallb is_str names = true.
Proof.
  revert i. induction cs as [|c cs IH]; intros i H.
  - now exists [].
  - simpl in H. apply andb_true_iff in H. destruct H as [Hc Hcs].
    unfold column_ok in Hc. apply andb_true_iff in Hc.
    destruct Hc as [Hd Hn].
    destruct (IH (S i) Hcs) as (names & Hnames & Hstr).
    simpl. rewrite Hd, Hnames. eexists. split; [reflexivity|].
    simpl. rewrite Hstr, andb_true_r.
    destruct c; try discriminate. unfold dict_get in *.
    destruct (lookup items "name"); [exact Hn|reflexivity].
Qed.

Lemma strings_of_total items :
  forallb is_str items = true -> exists l, strings_of items = inr l.
Proof.
  induction items as [|v items IH]; intros H; [now exists []|].
  simpl in H. apply andb_true_iff in H. destruct H as [Hv Hi].
  destruct v; try discriminate. destruct (IH Hi) as [l Hl].
  simpl. rewrite Hl. eauto.
Qed.

Section RenderingFacts.

Variable str : value -> string.

Lemma row_lines_length rows lines :
  row_lines str rows = inr lines -> List.length lines = List.length rows.
Proof.
  revert lines. induction rows as [|row rows IH]; intros lines H.
  - now inversion H.
  - simpl in H. destruct (row_line str row); [discriminate|].
    destruct (row_lines str rows) as [e|l]; [discriminate|].
    inversion H; subst. simpl. now rewrite (IH l eq_refl).
Qed.

Lemma row_lines_total rows :
  forallb row_ok rows = true -> exists lines, row_lines str rows = inr lines.
Proof.
  induction rows as [|row rows IH]; intros H; [now exists []|].
  simpl in H. apply andb_true_iff in H. destruct H as [Hr Hrs].
  destruct (IH Hrs) as [lines Hl]. simpl. rewrite Hl.
  destruct row; try discriminate; simpl; eauto.
Qed.

(** X10. When [_format_response] produces a reply, the reply is never the
    empty string. *)
Theorem reply_is_never_empty (result : GenieResult) (reply : string) :
  _format_response str result = inr reply -> reply <> EmptyString.
Proof.
  unfold _format_response.
  destruct (eq_str (status result) "FAILED"); [intros [= <-]; discriminate|].
  destruct (eq_str (status result) "TIMEOUT"); [intros [= <-]; discriminate|].
  set (p1 := if truthy (text result) then [text result] else []).
  set (p2 := if truthy (sql result)
             then p1 ++ [VStr (sql_block str (sql result))] else p1).
  assert (H1 : Forall (fun v => v <> VStr "") p1).
  { subst p1. destruct (truthy (text result)) eqn:Ht; constructor;
      [now apply truthy_not_empty | constructor]. }
  assert (H2 : Forall (fun v => v <> VStr "") p2).
  { subst p2. destruct (truthy (sql result)); [|exact H1].
    apply Forall_app. split; [exact H1|].
    constructor; [discriminate | constructor]. }
  assert (Hjoin : forall parts,
             Forall (fun v => v <> VStr "") parts ->
             match parts with
             | [] => inr empty_reply
             | _ :: _ => join (nl ++ nl)%string parts
             end = inr reply -> reply <> EmptyString).
  { intros [|v parts] Hf H.
    - inversion H. discriminate.
    - apply join_nonempty in H; [exact H | discriminate | exact Hf]. }
  destruct (truthy (columns result) && truthy (rows result)).
  - destruct (render_table str (columns result) (rows result)) as [e|table];
      [discriminate|].
    apply Hjoin. apply Forall_app. split; [exact H2|].
    constructor; [discriminate | constructor].
  - now apply Hjoin.
Qed.

(** X11. A result of the documented types always renders: when its text, if
    any, is a string, and its table, if any, is a list of column
    descriptors with string names and a list whose first 20 rows are lists
    or objects, [_format_response] produces a reply, whatever the rows
    after the twentieth are. *)
Theorem renderable_results_render (result : GenieResult) :
  renderable result = true ->
  exists reply, _format_response str result = inr reply.
Proof.
  unfold renderable, _format_response. intros H.
  apply andb_true_iff in H. destruct H as [Ht Htab].
  destruct (eq_str (status result) "FAILED"); [eauto|].
  destruct (eq_str (status result) "TIMEOUT"); [eauto|].
  set (p1 := if truthy (text result) then [text result] else []).
  set (p2 := if truthy (sql result)
             then p1 ++ [VStr (sql_block str (sql result))] else p1).
  assert (H1 : forallb is_str p1 = true).
  { subst p1. destruct (truthy (text result)); [|reflexivity].
    simpl in *. now rewrite Ht. }
  assert (H2 : forallb is_str p2 = true).
  { subst p2. destruct (truthy (sql result)); [|exact H1].
    rewrite forallb_app, H1. reflexivity. }
  assert (Hjoin : forall parts,
             forallb is_str parts = true ->
             exists reply,
               match parts with
               | [] => inr empty_reply
               | _ :: _ => join (nl ++ nl)%string parts
               end = inr reply).
  { intros [|v parts] Hp; [eauto|].
    destruct (strings_of_total _ Hp) as [l Hl].
    unfold join. rewrite Hl. eauto. }
  destruct (truthy (columns result) && truthy (rows result)) eqn:Hc;
    [|now apply Hjoin].
  cbn [negb orb] in Htab.
  destruct (columns result) as [| | | | |cs|]; try discriminate.
  destruct (rows result) as [| | | | |rs|]; try discriminate.
  apply andb_true_iff in Htab. destruct Htab as [Hcs Hrs].
  unfold render_table, column_names, first_rows.
  destruct (names_from_total 0 cs Hcs) as (names & -> & Hnames).
  destruct (strings_of_total _ Hnames) as [l Hl].
  unfold join at 1. rewrite Hl.
  destruct (row_lines_total _ Hrs) as [lines ->].
  apply Hjoin. rewrite forallb_app, H2. reflexivity.
Qed.

(** X12. The table shows at most twenty rows: when it renders, it is a
    header line, a separator line and one line for each of the first
    [min 20 n] of the [n] rows, followed by the note with the total exactly
    when [n] exceeds 20; the rows after the twentieth are not looked at. *)
Theorem table_shows_twenty_rows (cols : value) (rs : list value)
    (table : string) :
  render_table str cols (VList rs) = inr table ->
  exists header sep lines,
    row_lines str (firstn 20 rs) = inr lines
    /\ List.length lines = Nat.min 20 (List.length rs)
    /\ table =
       (String.concat nl (header :: sep :: lines)
        ++ (if (20 <? List.length rs)%nat then footer (List.length rs)
            else ""))%string
    /\ forall rs',
         firstn 20 rs' = firstn 20 rs ->
         List.length rs' = List.length rs ->
         render_table str cols (VList rs') = inr table.
Proof.
  unfold render_table. intros H.
  destruct (column_names cols) as [e|names]; [discriminate|].
  destruct (join " | " names) as [e|joined]; [discriminate|].
  cbv zeta in H. cbn [first_rows row_count] in *.
  destruct (row_lines str (firstn 20 rs)) as [e|lines] eqn:Hl; [discriminate|].
  exists ("| " ++ joined ++ " |")%string,
    ("| " ++ String.concat " | " (repeat "---" (List.length names)) ++ " |")%string,
    lines.
  split; [reflexivity|]. split.
  - rewrite (row_lines_length _ _ Hl). apply length_firstn.
  - split.
    + destruct (20 <? List.length rs); [congruence|].
      rewrite append_empty. congruence.
    + intros rs' Hf Hn. cbn [first_rows row_count]. rewrite Hf, Hl, Hn.
      exact H.
Qed.

End RenderingFacts.


(** ** The conversation map *)

Lemma lookup_map_pop m key key' :
  lookup (map_pop m key) key' =
  if String.eqb key' key then None else lookup m key'.
Proof.
  unfold map_pop. induction m as [|[k v] m IH]; cbn [filter lookup fst].
  - now destruct (String.eqb key' key).
  - destruct (String.eqb k key) eqn:Hk; cbn [negb lookup]; rewrite IH.
    + apply String.eqb_eq in Hk. subst k.
      destruct (String.eqb key' key) eqn:Hk'; [reflexivity|].
      rewrite String.eqb_sym in Hk'. now rewrite Hk'.
    + destruct (String.eqb k key') eqn:Hk'; [|reflexivity].
      apply String.eqb_eq in Hk'. subst k.
      now rewrite Hk.
Qed.

Lemma map_get_pop m key key' :
  map_get (map_pop m key) key' =
  if String.eqb key' key then VNone else map_get m key'.
Proof.
  unfold map_get. rewrite lookup_map_pop.
  now destruct (String.eqb key' key).
Qed.

Lemma map_get_set m key v key' :
  map_get (map_set m key v) key' =
  if String.eqb key' key then v else map_get m key'.
Proof.
  unfold map_set, map_get at 1. cbn [lookup].
  rewrite String.eqb_sym.
  destruct (String.eqb_spec key' key) as [->|Hk]; [reflexivity|].
  rewrite lookup_map_pop.
  destruct (String.eqb_spec key' key); [contradiction|reflexivity].
Qed.

Section Turns.

Variable session : server.
Variable str : value -> string.
Variable exn_text : exn -> string.
Variable strip lower : string -> string.

Lemma ask_with_id fuel question cid :
  ask_with session str fuel question (id_value cid) =
  ask session str fuel question cid.
Proof.
  unfold ask_with, ask. destruct cid as [c|]; [|reflexivity].
  cbn [id_value]. destruct (truthy (VStr c)); reflexivity.
Qed.

(** A turn that asks is the call of [ask] and what is made of its
    outcome. *)
Lemma on_message_asks fuel act user_text m cid :
  asks strip lower act user_text ->
  map_get m (conversation act) = id_value cid ->
  on_message session str exn_text strip lower fuel act m =
  match ask session str fuel user_text cid initial with
  | (Raise e, w) =>
      (Handled, m,
       [Sent Typing; Asked user_text (id_value cid) w; Logged e;
        Sent (Text (api_error_reply exn_text e))])
  | (OutOfFuel, w) =>
      (Unfinished, m, [Sent Typing; Asked user_text (id_value cid) w])
  | (Ret result, w) =>
      let m' :=
        if truthy (conversation_id result)
        then map_set m (conversation act) (conversation_id result)
        else m in
      match _format_response str result with
      | inr response =>
          (Handled, m',
           [Sent Typing; Asked user_text (id_value cid) w;
            Sent (Text response)])
      | inl e =>
          (Escaped e, m', [Sent Typing; Asked user_text (id_value cid) w])
      end
  end.
Proof.
  intros (Hty & Htx & Hne & Hre) Hm. unfold on_message.
  rewrite Hty. rewrite String.eqb_refl. cbn [negb].
  rewrite <- Htx.
  destruct (String.eqb_spec user_text ""); [contradiction|].
  rewrite Hre, Hm, ask_with_id. reflexivity.
Qed.

(** X14. A reset command (after [strip], in any case that [lower] maps to
    one of the three commands) forgets the conversation of its thread and
    of no other, answers with the fixed confirmation and does not ask
    Genie. *)
Theorem reset_forgets_the_thread fuel act m :
  resets strip lower act ->
  on_message session str exn_text strip lower fuel act m =
  (Handled, map_pop m (conversation act), [Sent (Text reset_reply)])
  /\ map_get (map_pop m (conversation act)) (conversation act) = VNone
  /\ forall thread,
       thread <> conversation act ->
       map_get (map_pop m (conversation act)) thread = map_get m thread.
Proof.
  intros (Hty & Hne & Hre). split; [|split].
  - unfold on_message. rewrite Hty. rewrite String.eqb_refl. cbn [negb].
    destruct (String.eqb_spec (strip match activity_text act with
                                     | Some s => s
                                     | None => ""
                                     end) ""); [contradiction|].
    now rewrite Hre.
  - rewrite map_get_pop. now rewrite String.eqb_refl.
  - intros thread Ht. rewrite map_get_pop.
    destruct (String.eqb_spec thread (conversation act));
      [contradiction|reflexivity].
Qed.

End Turns.

(** ** Turns that reach Genie *)

Section AskingTurns.

Variable session : server.
Variable str : value -> string.
Variable exn_text : exn -> string.
Variable strip lower : string -> string.

Lemma ask_first_request fuel question cid o w' :
  ask session str fuel question cid initial = (o, w') ->
  first_request w' = Some (submit_request question cid).
Proof.
  intros H. apply ask_trace in H.
  destruct H as (conv & msg & n & evs & _ & Htr & _).
  unfold first_request. now rewrite Htr.
Qed.

Lemma ask_follow_up_keeps fuel question c r w' :
  c <> "" ->
  ask session str fuel question (Some c) initial = (Ret r, w') ->
  conversation_id r = VStr c.
Proof.
  intros Hc H. apply ask_ret_ids in H.
  now apply (submitted_follow_up c _ _ _ Hc) in H.
Qed.

Lemma submit_request_follow_up question c :
  c <> "" ->
  submit_request question (Some c)
  = POST (Messages (VStr c)) (question_body question).
Proof.
  intros Hc. unfold submit_request. simpl.
  destruct (String.eqb_spec c ""); [contradiction|reflexivity].
Qed.

(** What [ask] returns for a well-formed terminal message. *)
Lemma ask_answered_ret fuel question cid conv msg n data :
  run_answered session question cid conv msg n data ->
  n < fuel ->
  well_formed data = true ->
  exists r w',
    ask session str fuel question cid initial = (Ret r, w')
    /\ status r = dict_get data "status" (VStr "")
    /\ text r = last_text (attachment_list data)
    /\ sql r = last_query (attachment_list data)
    /\ error r = (if truthy (dict_get data "error" VNone)
                  then Some (str (dict_get data "error" VNone)) else None)
    /\ conversation_id r = conv
    /\ (result_ids (attachment_list data) = [] ->
        columns r = VList [] /\ rows r = VList []).
Proof.
  intros Hrun Hf Hwf.
  rewrite (ask_answered session str fuel question cid conv msg n data Hrun Hf).
  destruct Hrun as (_ & _ & Ho & _).
  apply observe_terminal in Ho. destruct Ho as [Hd Ht].
  set (w := after_polls _ _ _ _).
  destruct (parse_response_total session str data conv msg w Hwf)
    as (r & w' & H).
  exists r, w'. split; [exact H|].
  pose proof (parse_response_ret session str data conv msg w r w' Hd H)
    as (_ & H1 & H2 & H3 & H4 & H5 & _).
  rewrite <- (terminal_status data Ht).
  repeat split; trivial;
    apply (parse_response_no_table session str data conv msg w r w' Hd)
      in H; try apply H;
    intros _ i a Hi; rewrite H0 in Hi; destruct i; discriminate.
Qed.

(** X15. Once a thread has a conversation (a non-empty string), a question
    in that thread is posted to that conversation, and the thread still has
    the same conversation afterwards, however the turn ends. *)
Theorem thread_keeps_its_conversation fuel act user_text m c e m' evs :
  asks strip lower act user_text ->
  map_get m (conversation act) = VStr c ->
  c <> "" ->
  on_message session str exn_text strip lower fuel act m = (e, m', evs) ->
  map_get m' (conversation act) = VStr c
  /\ exists w,
       In (Asked user_text (VStr c) w) evs
       /\ first_request w
          = Some (POST (Messages (VStr c)) (question_body user_text)).
Proof.
  intros Hasks Hm Hc.
  rewrite (on_message_asks session str exn_text strip lower fuel act
             user_text m (Some c) Hasks Hm).
  destruct (ask session str fuel user_text (Some c) initial) as [o w] eqn:H.
  pose proof (ask_first_request _ _ _ _ _ H) as Hfirst.
  rewrite (submit_request_follow_up user_text c Hc) in Hfirst.
  destruct o as [r|x|].
  - pose proof (ask_follow_up_keeps _ _ _ _ _ Hc H) as Hr.
    cbv zeta. rewrite Hr.
    assert (Ht : truthy (VStr c) = true).
    { simpl. destruct (String.eqb_spec c ""); [contradiction|reflexivity]. }
    rewrite Ht.
    destruct (_format_response str r); intros [= <- <- <-];
      (split; [rewrite map_get_set; now rewrite String.eqb_refl|]);
      exists w; simpl; auto.
  - intros [= <- <- <-]. split; [exact Hm|]. exists w. simpl. auto.
  - intros [= <- <- <-]. split; [exact Hm|]. exists w. simpl. auto.
Qed.

(** X16. A turn whose question gets a well-formed terminal message stores
    the conversation of the result for its thread (when it is truthy),
    even when rendering the result then fails; other threads keep
    theirs. *)
Theorem answered_turn_stores_conversation fuel act user_text m cid conv msg n
    data :
  asks strip lower act user_text ->
  map_get m (conversation act) = id_value cid ->
  run_answered session user_text cid conv msg n data ->
  n < fuel ->
  well_formed data = true ->
  truthy conv = true ->
  exists e w evs,
    on_message session str exn_text strip lower fuel act m =
    (e, map_set m (conversation act) conv,
     Sent Typing :: Asked user_text (id_value cid) w :: evs)
    /\ map_get (map_set m (conversation act) conv) (conversation act) = conv
    /\ forall thread,
         thread <> conversation act ->
         map_get (map_set m (conversation act) conv) thread
         = map_get m thread.
Proof.
  intros Hasks Hm Hrun Hf Hwf Hconv.
  rewrite (on_message_asks session str exn_text strip lower fuel act
             user_text m cid Hasks Hm).
  destruct (ask_answered_ret fuel user_text cid conv msg n data Hrun Hf Hwf)
    as (r & w & -> & _ & _ & _ & _ & Hc & _).
  cbv zeta. rewrite Hc, Hconv.
  assert (Hmap : map_get (map_set m (conversation act) conv)
                   (conversation act) = conv
                 /\ forall thread,
                      thread <> conversation act ->
                      map_get (map_set m (conversation act) conv) thread
                      = map_get m thread).
  { split; [rewrite map_get_set; now rewrite String.eqb_refl|].
    intros thread Ht. rewrite map_get_set.
    destruct (String.eqb_spec thread (conversation act));
      [contradiction|reflexivity]. }
  destruct (_format_response str r) as [x|reply].
  - exists (Escaped x), w, []. split; [reflexivity | exact Hmap].
  - exists Handled, w, [Sent (Text reply)]. split; [reflexivity | exact Hmap].
Qed.

(** X17. When no status request within the budget finds a terminal status,
    the turn answers with the fixed text about the query taking too long,
    logs nothing, and stores the conversation that the submission
    obtained. *)
Theorem timed_out_turn fuel act user_text m cid conv msg :
  asks strip lower act user_text ->
  map_get m (conversation act) = id_value cid ->
  run_pending session user_text cid conv msg ->
  MAX_ATTEMPTS <= fuel ->
  on_message session str exn_text strip lower fuel act m =
  (Handled,
   (if truthy conv then map_set m (conversation act) conv else m),
   [Sent Typing;
    Asked user_text (id_value cid)
      (after_polls (Message conv msg) 0 MAX_ATTEMPTS
         (submitted_world user_text cid));
    Sent (Text timeout_reply)]).
Proof.
  intros Hasks Hm Hrun Hf.
  rewrite (on_message_asks session str exn_text strip lower fuel act
             user_text m cid Hasks Hm).
  rewrite (ask_pending session str fuel user_text cid conv msg Hrun Hf).
  reflexivity.
Qed.

(** X18. When the submission or a status request fails in the transport,
    the exception does not escape the turn: it is logged, the user is told
    of the API error, and the conversation map is left exactly as it
    was. *)
Theorem failed_call_keeps_the_map fuel act user_text m cid :
  asks strip lower act user_text ->
  map_get m (conversation act) = id_value cid ->
  (forall e,
     submit_failure session user_text cid e ->
     on_message session str exn_text strip lower fuel act m =
     (Handled, m,
      [Sent Typing;
       Asked user_text (id_value cid) (submitted_world user_text cid);
       Logged e;
       Sent (Text (api_error_reply exn_text e))]))
  /\ (forall conv msg n e,
        poll_failure session user_text cid conv msg n e ->
        n < fuel ->
        on_message session str exn_text strip lower fuel act m =
        (Handled, m,
         [Sent Typing;
          Asked user_text (id_value cid)
            (after_polls (Message conv msg) 0 (S n)
               (submitted_world user_text cid));
          Logged e;
          Sent (Text (api_error_reply exn_text e))])).
Proof.
  intros Hasks Hm. split.
  - intros e He.
    rewrite (on_message_asks session str exn_text strip lower fuel act
               user_text m cid Hasks Hm).
    now rewrite (ask_rejected session str fuel user_text cid e He).
  - intros conv msg n e He Hf.
    rewrite (on_message_asks session str exn_text strip lower fuel act
               user_text m cid Hasks Hm).
    now rewrite (ask_poll_failure session str fuel user_text cid conv msg n e
                   He Hf).
Qed.

(** X19. For a well-formed FAILED message the turn answers with the error
    of the message after the fixed prefix, or with [Unknown error] when the
    message has none; text, query and table are not shown. *)
Theorem failed_turn_shows_the_error fuel act user_text m cid conv msg n data :
  asks strip lower act user_text ->
  map_get m (conversation act) = id_value cid ->
  run_answered session user_text cid conv msg n data ->
  n < fuel ->
  well_formed data = true ->
  dict_get data "status" (VStr "") = VStr "FAILED" ->
  exists w,
    on_message session str exn_text strip lower fuel act m =
    (Handled,
     (if truthy conv then map_set m (conversation act) conv else m),
     [Sent Typing;
      Asked user_text (id_value cid) w;
      Sent (Text (failed_prefix
                  ++ error_or
                       (if truthy (dict_get data "error" VNone)
                        then Some (str (dict_get data "error" VNone))
                        else None)
                       "Unknown error")%string)]).
Proof.
  intros Hasks Hm Hrun Hf Hwf Hst.
  rewrite (on_message_asks session str exn_text strip lower fuel act
             user_text m cid Hasks Hm).
  destruct (ask_answered_ret fuel user_text cid conv msg n data Hrun Hf Hwf)
    as (r & w & -> & Hs & _ & _ & He & Hc & _).
  exists w. cbv zeta. unfold _format_response.
  rewrite Hs, Hst, He, Hc. reflexivity.
Qed.

(** X20. For a well-formed terminal message that is not FAILED and has no
    attachments (a CANCELLED one, say), the turn answers that Genie
    returned an empty response: the error of the message is not shown. *)
Theorem empty_turn_hides_the_error fuel act user_text m cid conv msg n data :
  asks strip lower act user_text ->
  map_get m (conversation act) = id_value cid ->
  run_answered session user_text cid conv msg n data ->
  n < fuel ->
  well_formed data = true ->
  attachment_list data = [] ->
  dict_get data "status" (VStr "") <> VStr "FAILED" ->
  exists w,
    on_message session str exn_text strip lower fuel act m =
    (Handled,
     (if truthy conv then map_set m (conversation act) conv else m),
     [Sent Typing;
      Asked user_text (id_value cid) w;
      Sent (Text empty_reply)]).
Proof.
  intros Hasks Hm Hrun Hf Hwf Hatt Hst.
  rewrite (on_message_asks session str exn_text strip lower fuel act
             user_text m cid Hasks Hm).
  pose proof Hrun as (_ & _ & Ho & _).
  apply observe_terminal in Ho. destruct Ho as [_ Hterm].
  destruct (ask_answered_ret fuel user_text cid conv msg n data Hrun Hf Hwf)
    as (r & w & -> & Hs & Ht & Hq & _ & Hc & Htab).
  rewrite Hatt in *. destruct (Htab eq_refl) as [Hcols Hrows].
  exists w. cbv zeta. unfold _format_response.
  rewrite Hs, Ht, Hq, Hcols, Hrows, Hc.
  destruct (is_terminal_cases _ Hterm) as [E|[E|E]]; rewrite E in *;
    [reflexivity | contradiction | reflexivity].
Qed.

End AskingTurns.

(** ** Sample turns *)

Lemma a_question_asks : asks ascii_strip ascii_lower (says a_question) a_question.
Proof. repeat split; [discriminate]. Defined.

Lemma reply_is_never_empty_witness :
  _format_response sample_str completed_result
  = inr ("42 orders" ++ nl ++ nl
         ++ sql_block sample_str (VStr "SELECT COUNT(*) FROM orders"))%string
  /\ ("42 orders" ++ nl ++ nl
      ++ sql_block sample_str (VStr "SELECT COUNT(*) FROM orders"))%string
     <> EmptyString.
Proof.
  split; [reflexivity|].
  apply (reply_is_never_empty sample_str completed_result). reflexivity.
Defined.

Lemma renderable_results_render_witness :
  renderable long_result = true
  /\ exists reply, _format_response sample_str long_result = inr reply.
Proof.
  split; [reflexivity|].
  apply (renderable_results_render sample_str long_result). reflexivity.
Defined.

Lemma table_shows_twenty_rows_witness :
  exists table,
    render_table sample_str long_columns (VList long_rows) = inr table
    /\ exists lines,
         row_lines sample_str (firstn 20 long_rows) = inr lines
         /\ List.length lines = 20.
Proof.
  eexists. split; [vm_compute; reflexivity|].
  destruct (table_shows_twenty_rows sample_str long_columns long_rows _
              ltac:(vm_compute; reflexivity))
    as (header & sep & lines & Hl & Hn & _).
  exists lines. split; [exact Hl | exact Hn].
Defined.


Lemma reset_forgets_the_thread_witness :
  resets ascii_strip ascii_lower (says "  /Reset ")
  /\ on_message always_pending sample_str sample_exn_text ascii_strip
       ascii_lower MAX_ATTEMPTS (says "  /Reset ") a_map
     = (Handled, [("19:other@teams", VStr "c3")], [Sent (Text reset_reply)]).
Proof.
  assert (H : resets ascii_strip ascii_lower (says "  /Reset "))
    by (repeat split; discriminate).
  split; [exact H|].
  exact (proj1 (reset_forgets_the_thread always_pending sample_str
                  sample_exn_text ascii_strip ascii_lower MAX_ATTEMPTS
                  (says "  /Reset ") a_map H)).
Defined.

Lemma thread_keeps_its_conversation_witness :
  asks ascii_strip ascii_lower (says a_question) a_question
  /\ map_get a_map a_thread = VStr "c7"
  /\ on_message follows_up sample_str sample_exn_text ascii_strip ascii_lower
       MAX_ATTEMPTS (says a_question) a_map
     = (Handled, map_set a_map a_thread (VStr "c7"),
        [Sent Typing; Asked a_question (VStr "c7") cancelled_world;
         Sent (Text empty_reply)])
  /\ map_get (map_set a_map a_thread (VStr "c7")) a_thread = VStr "c7".
Proof.
  assert (H : on_message follows_up sample_str sample_exn_text ascii_strip
                ascii_lower MAX_ATTEMPTS (says a_question) a_map
              = (Handled, map_set a_map a_thread (VStr "c7"),
                 [Sent Typing; Asked a_question (VStr "c7") cancelled_world;
                  Sent (Text empty_reply)]))
    by (vm_compute; reflexivity).
  split; [exact a_question_asks|]. split; [reflexivity|]. split; [exact H|].
  exact (proj1 (thread_keeps_its_conversation follows_up sample_str
                  sample_exn_text ascii_strip ascii_lower MAX_ATTEMPTS
                  (says a_question) a_question a_map "c7" _ _ _
                  a_question_asks eq_refl ltac:(discriminate) H)).
Defined.

Lemma answered_turn_stores_conversation_witness :
  asks ascii_strip ascii_lower (says a_question) a_question
  /\ run_answered completes_with_table a_question None
       (VStr "c1") (VStr "m1") 0 tabled_message
  /\ exists e w evs,
       on_message completes_with_table sample_str sample_exn_text ascii_strip
         ascii_lower MAX_ATTEMPTS (says a_question) []
       = (e, map_set [] a_thread (VStr "c1"),
          Sent Typing :: Asked a_question VNone w :: evs).
Proof.
  split; [exact a_question_asks|]. split; [exact completes_with_table_run|].
  destruct (answered_turn_stores_conversation completes_with_table sample_str
              sample_exn_text ascii_strip ascii_lower MAX_ATTEMPTS
              (says a_question) a_question [] None (VStr "c1") (VStr "m1") 0
              tabled_message a_question_asks eq_refl
              completes_with_table_run enough_fuel eq_refl eq_refl)
    as (e & w & evs & H & _).
  exists e, w, evs. exact H.
Defined.

Lemma timed_out_turn_witness :
  asks ascii_strip ascii_lower (says a_question) a_question
  /\ run_pending always_pending a_question None (VStr "c1") (VStr "m1")
  /\ on_message always_pending sample_str sample_exn_text ascii_strip
       ascii_lower MAX_ATTEMPTS (says a_question) []
     = (Handled, [(a_thread, VStr "c1")],
        [Sent Typing; Asked a_question VNone timed_out_world;
         Sent (Text timeout_reply)]).
Proof.
  split; [exact a_question_asks|]. split; [exact always_pending_run|].
  exact (timed_out_turn always_pending sample_str sample_exn_text ascii_strip
           ascii_lower MAX_ATTEMPTS (says a_question) a_question [] None
           (VStr "c1") (VStr "m1") a_question_asks eq_refl always_pending_run
           (le_n _)).
Defined.

Lemma failed_call_keeps_the_map_witness :
  asks ascii_strip ascii_lower (says a_question) a_question
  /\ submit_failure submit_down a_question (Some "c7") (HTTPError 503)
  /\ on_message submit_down sample_str sample_exn_text ascii_strip ascii_lower
       MAX_ATTEMPTS (says a_question) a_map
     = (Handled, a_map,
        [Sent Typing;
         Asked a_question (VStr "c7") (submitted_world a_question (Some "c7"));
         Logged (HTTPError 503);
         Sent (Text (api_error_reply sample_exn_text (HTTPError 503)))]).
Proof.
  split; [exact a_question_asks|]. split; [reflexivity|].
  exact (proj1 (failed_call_keeps_the_map submit_down sample_str
                  sample_exn_text ascii_strip ascii_lower MAX_ATTEMPTS
                  (says a_question) a_question a_map (Some "c7")
                  a_question_asks eq_refl)
           (HTTPError 503) eq_refl).
Defined.

Lemma failed_turn_shows_the_error_witness :
  asks ascii_strip ascii_lower (says a_question) a_question
  /\ run_answered fails_with_error a_question (Some "c7")
       (VStr "c7") (VStr "") 1 failed_message
  /\ exists w,
       on_message fails_with_error sample_str sample_exn_text ascii_strip
         ascii_lower MAX_ATTEMPTS (says a_question) a_map
       = (Handled, map_set a_map a_thread (VStr "c7"),
          [Sent Typing; Asked a_question (VStr "c7") w;
           Sent (Text (failed_prefix ++ "Ambiguous question")%string)]).
Proof.
  split; [exact a_question_asks|]. split; [exact fails_with_error_run|].
  exact (failed_turn_shows_the_error fails_with_error sample_str
           sample_exn_text ascii_strip ascii_lower MAX_ATTEMPTS
           (says a_question) a_question a_map (Some "c7") (VStr "c7")
           (VStr "") 1 failed_message a_question_asks eq_refl
           fails_with_error_run ltac:(unfold MAX_ATTEMPTS; lia)
           eq_refl eq_refl).
Defined.

Lemma empty_turn_hides_the_error_witness :
  asks ascii_strip ascii_lower (says a_question) a_question
  /\ run_answered follows_up a_question (Some "c7")
       (VStr "c7") (VStr "m2") 0 cancelled_message
  /\ exists w,
       on_message follows_up sample_str sample_exn_text ascii_strip
         ascii_lower MAX_ATTEMPTS (says a_question) a_map
       = (Handled, map_set a_map a_thread (VStr "c7"),
          [Sent Typing; Asked a_question (VStr "c7") w;
           Sent (Text empty_reply)]).
Proof.
  split; [exact a_question_asks|]. split; [exact follows_up_run|].
  exact (empty_turn_hides_the_error follows_up sample_str sample_exn_text
           ascii_strip ascii_lower MAX_ATTEMPTS (says a_question) a_question
           a_map (Some "c7") (VStr "c7") (VStr "m2") 0 cancelled_message
           a_question_asks eq_refl follows_up_run enough_fuel eq_refl eq_refl
           ltac:(discriminate)).
Defined.

(** ** Two more edges *)

Section Edges.

Variable session : server.
Variable str : value -> string.
Variable exn_text : exn -> string.
Variable strip lower : string -> string.

(** X21. A result that is neither FAILED nor TIMEOUT and whose text is
    truthy but not a string (a number, say) cannot be rendered:
    [_format_response] raises instead of producing a reply. *)
Theorem text_that_is_no_string_raises (result : GenieResult) :
  eq_str (status result) "FAILED" = false ->
  eq_str (status result) "TIMEOUT" = false ->
  truthy (text result) = true ->
  is_str (text result) = false ->
  exists e, _format_response str result = inl e.
Proof.
  intros Hf Ht Htext Hstr. unfold _format_response. rewrite Hf, Ht, Htext.
  assert (Hparts : forall rest,
             exists e, join (nl ++ nl)%string (text result :: rest) = inl e).
  { intros rest. unfold join. simpl.
    destruct (text result); try discriminate; eauto. }
  destruct (truthy (sql result)); cbn [app];
    (destruct (truthy (columns result) && truthy (rows result));
     [destruct (render_table str (columns result) (rows result));
      [eauto | cbn [app]; apply Hparts]
     | apply Hparts]).
Qed.

(** X22. After a reset, the next question in the thread starts a new
    conversation: it is posted to the start-conversation endpoint, with no
    conversation identifier. *)
Theorem question_after_reset_starts_anew fuel fuel' reset act user_text m m0
    e m' evs :
  resets strip lower reset ->
  asks strip lower act user_text ->
  conversation act = conversation reset ->
  on_message session str exn_text strip lower fuel reset m0
  = (Handled, m, [Sent (Text reset_reply)]) ->
  on_message session str exn_text strip lower fuel' act m = (e, m', evs) ->
  exists w,
    In (Asked user_text VNone w) evs
    /\ first_request w
       = Some (POST StartConversation (question_body user_text)).
Proof.
  intros Hreset Hasks Hthread Hfirst.
  assert (Hm : map_get m (conversation act) = id_value None).
  { revert Hfirst. unfold on_message.
    destruct Hreset as (Hty & Hne & Hre).
    rewrite Hty, String.eqb_refl. cbn [negb].
    destruct (String.eqb_spec (strip match activity_text reset with
                                     | Some s => s
                                     | None => ""
                                     end) ""); [contradiction|].
    rewrite Hre. intros [= <-]. rewrite Hthread, map_get_pop.
    now rewrite String.eqb_refl. }
  rewrite (on_message_asks session str exn_text strip lower fuel' act
             user_text m None Hasks Hm).
  destruct (ask session str fuel' user_text None initial) as [o w] eqn:H.
  pose proof (ask_first_request session str _ _ _ _ _ H) as Hreq.
  cbn [id_value].
  destruct o as [r|x|]; cbv zeta;
    [destruct (_format_response str r)| |];
    intros [= <- <- <-]; exists w; simpl; auto.
Qed.

End Edges.

Lemma text_that_is_no_string_raises_witness :
  truthy (text numeric_result) = true
  /\ is_str (text numeric_result) = false
  /\ exists e, _format_response sample_str numeric_result = inl e.
Proof.
  split; [reflexivity|]. split; [reflexivity|].
  exact (text_that_is_no_string_raises sample_str numeric_result
           eq_refl eq_refl eq_refl eq_refl).
Defined.

Lemma question_after_reset_starts_anew_witness :
  resets ascii_strip ascii_lower (says "new conversation")
  /\ asks ascii_strip ascii_lower (says a_question) a_question
  /\ exists w,
       In (Asked a_question VNone w)
         [Sent Typing; Asked a_question VNone timed_out_world;
          Sent (Text timeout_reply)]
       /\ first_request w
          = Some (POST StartConversation (question_body a_question)).
Proof.
  assert (H : resets ascii_strip ascii_lower (says "new conversation"))
    by (repeat split; discriminate).
  split; [exact H|]. split; [exact a_question_asks|].
  exact (question_after_reset_starts_anew always_pending sample_str
           sample_exn_text ascii_strip ascii_lower MAX_ATTEMPTS MAX_ATTEMPTS
           (says "new conversation") (says a_question) a_question
           [("19:other@teams", VStr "c3")] a_map
           Handled
           [(a_thread, VStr "c1"); ("19:other@teams", VStr "c3")]
           [Sent Typing; Asked a_question VNone timed_out_world;
            Sent (Text timeout_reply)]
           H a_question_asks eq_refl
           ltac:(vm_compute; reflexivity) ltac:(vm_compute; reflexivity)).
Defined.


(** * The two readings, refuted *)

(** Where every text payload that passes the test has a non-empty content,
    the text that the code keeps is the last non-empty one. *)
Lemma last_text_agrees (attachments : list value) :
  (forall att, In att attachments -> has_text att = true ->
               truthy (text_of att) = true) ->
  last_text attachments = last_nonempty_text attachments.
Proof.
  intros H. unfold last_text, last_nonempty_text.
  induction attachments as [|a l IH]; [reflexivity|].
  rewrite !last_with_cons.
  assert (Hl : forall att, In att l -> has_text att = true ->
                           truthy (text_of att) = true)
    by (intros att Hin; apply H; now right).
  specialize (IH Hl).
  destruct (last_with has_text l) as [x|] eqn:Hx;
    destruct (last_with nonempty_text l) as [y|] eqn:Hy.
  - exact IH.
  - exfalso. unfold last_with in *. apply find_some in Hx.
    destruct Hx as [Hin Ht]. apply in_rev in Hin.
    pose proof (find_none _ _ Hy x (proj1 (in_rev l x) Hin)) as Hn.
    unfold nonempty_text in Hn. now rewrite Ht, (Hl x Hin Ht) in Hn.
  - exfalso. unfold last_with in *. apply find_some in Hy.
    destruct Hy as [Hin Ht]. unfold nonempty_text in Ht.
    apply andb_true_iff in Ht. destruct Ht as [Ht _].
    pose proof (find_none _ _ Hx y Hin) as Hn. congruence.
  - unfold nonempty_text. destruct (has_text a) eqn:Ha; [|reflexivity].
    now rewrite (H a (or_introl eq_refl) Ha).
Qed.

(** C1: a later text payload with an empty content replaces the text of an
    earlier attachment, so the result does not hold the last non-empty
    text. *)
Lemma last_nonempty_text_is_overwritten : ~ keeps_last_nonempty.
Proof.
  intros H.
  assert (Hrun : run_answered completes_with_empty_text a_question None
                   (VStr "c1") (VStr "m1") 0 overwritten_message).
  { repeat split; [intros j Hj; lia | unfold MAX_ATTEMPTS; lia]. }
  assert (Hask : ask completes_with_empty_text sample_str MAX_ATTEMPTS
                   a_question None initial
                 = (Ret overwritten_result, overwritten_world))
    by (vm_compute; reflexivity).
  destruct (H completes_with_empty_text sample_str MAX_ATTEMPTS a_question
              None (VStr "c1") (VStr "m1") 0 overwritten_message
              overwritten_result overwritten_world Hrun enough_fuel Hask)
    as [Htext _].
  vm_compute in Htext. discriminate Htext.
Qed.

(** C5: a refused connection and a refused request raise exceptions of two
    classes, [ConnectionError] and [HTTPError]: the submission has no error
    kind of its own. *)
Lemma no_submission_error_kind : ~ raises_one_submission_error.
Proof.
  intros [kind H].
  assert (H1 : same_class ConnectionError kind = true).
  { apply (H unreachable sample_str MAX_ATTEMPTS a_question None
             ConnectionError (submitted_world a_question None)).
    - exists ConnectionError. reflexivity.
    - vm_compute. reflexivity. }
  assert (H2 : same_class (HTTPError 503) kind = true).
  { apply (H submit_down sample_str MAX_ATTEMPTS a_question None
             (HTTPError 503) (submitted_world a_question None)).
    - exists (HTTPError 503). reflexivity.
    - vm_compute. reflexivity. }
  destruct kind; discriminate.
Qed.
